(** * Enrollment spans and outpatient-visit summaries (task_b.py)

    A shallow embedding of the two stages of [task_b.py]:

    - Step 1 (lines 59-126) turns the rows of [patient_id_month_year.csv]
      into the table [patient_enrollment_span];
    - Step 2 (lines 141-182) joins that table with the rows of
      [outpatient_visits_file.csv] and writes [result.csv].

    A pandas data frame is a list of rows in index order; a column
    operation ([diff], [cumsum], [groupby(...).transform]) is a function
    on the list of the column's values.  Retrieval from the object store
    and the writing of CSV files are left out. *)

From Stdlib Require Import ZArith List String Ascii Bool Lia.
From Stdlib Require Import Permutation Sorted OrdersEx RelationClasses.
Import ListNotations.
Open Scope Z_scope.

Set Implicit Arguments.

(** ** Calendar dates *)

Module Calendar.

(** A [pandas.Timestamp] at midnight, as produced by
    [pd.to_datetime(..., format='%m/%d/%y')]. *)
Record Timestamp : Set := mkTimestamp { year : Z; month : Z; day : Z }.

Definition is_leap_year (y : Z) : bool :=
  ((y mod 4 =? 0) && negb (y mod 100 =? 0)) || (y mod 400 =? 0).

Definition days_in_month (y m : Z) : Z :=
  if m =? 2 then (if is_leap_year y then 29 else 28)
  else if (m =? 4) || (m =? 6) || (m =? 9) || (m =? 11) then 30
  else 31.

Definition compare (a b : Timestamp) : comparison :=
  match year a ?= year b with
  | Eq => match month a ?= month b with
          | Eq => day a ?= day b
          | c => c
          end
  | c => c
  end.

Definition eqb (a b : Timestamp) : bool :=
  (year a =? year b) && (month a =? month b) && (day a =? day b).

Definition leb (a b : Timestamp) : bool :=
  match compare a b with Gt => false | _ => true end.

Definition ltb (a b : Timestamp) : bool :=
  match compare a b with Lt => true | _ => false end.

Definition min (a b : Timestamp) : Timestamp := if leb a b then a else b.
Definition max (a b : Timestamp) : Timestamp := if leb a b then b else a.

(** [ts + MonthEnd(0)]: roll forward to the last day of the month of
    [ts]; a date already on a month end is left where it is. *)
Definition MonthEnd0 (t : Timestamp) : Timestamp :=
  mkTimestamp (year t) (month t) (days_in_month (year t) (month t)).

End Calendar.

Import Calendar.

(** ** Data frames of the two stages *)

(** A row of [patient_id_month_year.csv] after [to_datetime] (line 85). *)
Record EnrollmentRecord : Set := mkEnrollment {
  patient_id : string;
  month_year : Timestamp
}.

(** A row of [patient_enrollment_span.csv]. *)
Record EnrollmentSpan : Set := mkSpan {
  span_patient_id : string;
  enrollment_start_date : Timestamp;
  enrollment_end_date : Timestamp
}.

(** A row of [outpatient_visits_file.csv] after [to_datetime] (line 155). *)
Record VisitRecord : Set := mkVisit {
  visit_patient_id : string;
  date : Timestamp;
  outpatient_visit_count : Z
}.

(** A row of [result.csv]. *)
Record EnrollmentSummary : Set := mkSummary {
  summary_span : EnrollmentSpan;
  ct_outpatient_visits : Z;
  ct_days_with_outpatient_visit : Z
}.

Definition span_eqb (a b : EnrollmentSpan) : bool :=
  String.eqb (span_patient_id a) (span_patient_id b)
  && Calendar.eqb (enrollment_start_date a) (enrollment_start_date b)
  && Calendar.eqb (enrollment_end_date a) (enrollment_end_date b).

(** ** pandas primitives *)

Module Pandas.

Section Generic.
Variables A K : Type.
Variable key_eqb : K -> K -> bool.
Variable key : A -> K.

(** [df.drop_duplicates(subset=key)], [keep='first']: a row stays
    when no earlier row has its key. *)
Fixpoint drop_duplicates (l : list A) : list A :=
  match l with
  | [] => []
  | x :: l' =>
      x :: filter (fun y => negb (key_eqb (key x) (key y)))
                  (drop_duplicates l')
  end.

(** [df.duplicated(subset=key).any()]. *)
Fixpoint any_duplicated (l : list A) : bool :=
  match l with
  | [] => false
  | x :: l' =>
      existsb (fun y => key_eqb (key x) (key y)) l' || any_duplicated l'
  end.

(** The rows of the group of key [k], in index order. *)
Definition group_rows (k : K) (l : list A) : list A :=
  filter (fun y => key_eqb k (key y)) l.
End Generic.

Section Sort.
Variable A : Type.
Variable leb : A -> A -> bool.

Fixpoint insert_sorted (x : A) (l : list A) : list A :=
  match l with
  | [] => [x]
  | y :: l' => if leb x y then x :: y :: l' else y :: insert_sorted x l'
  end.

(** [df.sort_values(by=...)] for the order [leb] on rows. *)
Fixpoint sort_by (l : list A) : list A :=
  match l with
  | [] => []
  | x :: l' => insert_sorted x (sort_by l')
  end.
End Sort.

(** [s.diff() != 1]: the first entry has no predecessor, its difference
    is NaN and [NaN != 1] holds. *)
Fixpoint diff_ne_1_from (prev : option Z) (dt : list Z) : list bool :=
  match dt with
  | [] => []
  | m :: dt' =>
      match prev with
      | None => true
      | Some p => negb (m - p =? 1)
      end :: diff_ne_1_from (Some m) dt'
  end.

Definition diff_ne_1 (dt : list Z) : list bool := diff_ne_1_from None dt.

(** [breaks.cumsum()] on a boolean column. *)
Fixpoint cumsum_from (acc : nat) (bs : list bool) : list nat :=
  match bs with
  | [] => []
  | b :: bs' =>
      let acc' := (if b then S acc else acc) in
      acc' :: cumsum_from acc' bs'
  end.

Definition cumsum (bs : list bool) : list nat := cumsum_from 0%nat bs.

(** The aggregations ['min'] and ['max'] of a group: a fold of the
    binary operation over the values of the group.  A group is never
    empty; [dflt] fills the case for totality. *)
Definition aggregate (op : Timestamp -> Timestamp -> Timestamp)
    (dflt : Timestamp) (values : list Timestamp) : Timestamp :=
  match values with
  | [] => dflt
  | v :: vs => fold_left op vs v
  end.

(** The values of [col] on the rows labelled [g]. *)
Definition group_values (groups : list nat) (col : list Timestamp) (g : nat)
  : list Timestamp :=
  map snd (filter (fun hw : nat * Timestamp => Nat.eqb (fst hw) g)
                  (combine groups col)).

(** [df.groupby('groups')[col].transform(agg)]: every row receives the
    aggregate of the rows that carry its group label. *)
Definition transform (op : Timestamp -> Timestamp -> Timestamp)
    (groups : list nat) (col : list Timestamp) : list Timestamp :=
  map (fun gv : nat * Timestamp =>
         aggregate op (snd gv) (group_values groups col (fst gv)))
      (combine groups col).

End Pandas.

(** ** Step 1: data transformation (lines 59-126) *)

(** [sort_values(by=['patient_id', 'month_year'])]: patient ids in
    lexicographic order of their characters, then dates ascending. *)
Definition enrollment_leb (a b : EnrollmentRecord) : bool :=
  match String_as_OT.compare (patient_id a) (patient_id b) with
  | Lt => true
  | Gt => false
  | Eq => Calendar.leb (month_year a) (month_year b)
  end.

Definition sort_values : list EnrollmentRecord -> list EnrollmentRecord :=
  Pandas.sort_by enrollment_leb.

(** Lines 106-109: the [groups] column of the sorted frame.  The column
    first written on line 103 is overwritten here before it is read. *)
Definition groups (df : list EnrollmentRecord) : list nat :=
  Pandas.cumsum (Pandas.diff_ne_1 (map (fun r => month (month_year r)) df)).

(** Lines 112-113. *)
Definition enrollment_start_col (df : list EnrollmentRecord) : list Timestamp :=
  Pandas.transform Calendar.min (groups df) (map month_year df).

Definition enrollment_end_col (df : list EnrollmentRecord) : list Timestamp :=
  Pandas.transform Calendar.max (groups df) (map month_year df).

(** The sorted frame with its columns [groups], [enrollment_start_date]
    and [enrollment_end_date]. *)
Definition FrameRow : Set := (EnrollmentRecord * (nat * (Timestamp * Timestamp)))%type.

Definition frame_record (x : FrameRow) : EnrollmentRecord := fst x.
Definition frame_group (x : FrameRow) : nat := fst (snd x).
Definition frame_start (x : FrameRow) : Timestamp := fst (snd (snd x)).
Definition frame_end (x : FrameRow) : Timestamp := snd (snd (snd x)).

Definition frame (df : list EnrollmentRecord) : list FrameRow :=
  combine df
    (combine (groups df)
       (combine (enrollment_start_col df) (enrollment_end_col df))).

(** Line 116: the rows that open or close their group. *)
Definition boundary_rows (df : list EnrollmentRecord) : list FrameRow :=
  filter (fun x : FrameRow =>
            Calendar.eqb (frame_start x) (month_year (frame_record x))
            || Calendar.eqb (frame_end x) (month_year (frame_record x)))
         (frame df).

(** Line 117: the columns that remain. *)
Definition to_span (x : FrameRow) : EnrollmentSpan :=
  mkSpan (patient_id (frame_record x)) (frame_start x) (frame_end x).

(** Line 122. *)
Definition fix_end_date (sp : EnrollmentSpan) : EnrollmentSpan :=
  mkSpan (span_patient_id sp) (enrollment_start_date sp)
         (MonthEnd0 (enrollment_end_date sp)).

(** The table written to [patient_enrollment_span.csv] (lines 86-122). *)
Definition SpanBuilder (rows : list EnrollmentRecord) : list EnrollmentSpan :=
  map fix_end_date
    (Pandas.drop_duplicates span_eqb (fun sp => sp)
       (map to_span (boundary_rows (sort_values rows)))).

(** *** Vocabulary for the statements about step 1 *)

Definition month_of (r : EnrollmentRecord) : Z := month (month_year r).

(** The sorted frame with the [groups] column alone. *)
Definition labelled (df : list EnrollmentRecord) : list (EnrollmentRecord * nat) :=
  combine df (groups df).

(** The rows of the frame that carry the label [g]: the run of records
    that lines 106-113 treat as one enrollment period. *)
Definition run_of (df : list EnrollmentRecord) (g : nat) : list EnrollmentRecord :=
  map fst (filter (fun x : EnrollmentRecord * nat => Nat.eqb (snd x) g)
                  (labelled df)).

(** The labels of lines 107-108 computed from some row on, given the
    month number of the row before and the running sum so far. *)
Definition labels_from (prev : option Z) (acc : nat) (df : list EnrollmentRecord)
  : list nat :=
  Pandas.cumsum_from acc
    (Pandas.diff_ne_1_from prev (map (fun r => month (month_year r)) df)).

Definition next_label (prev : option Z) (acc : nat) (r : EnrollmentRecord) : nat :=
  if match prev with
     | None => true
     | Some p => negb (month (month_year r) - p =? 1)
     end
  then S acc else acc.

(** A patient is enrolled in month number [m]. *)
Definition enrolled (rows : list EnrollmentRecord) (p : string) (m : Z) : Prop :=
  exists r, In r rows /\ patient_id r = p /\ month_of r = m.

(** No record of one patient is followed, in the sorted frame, by a
    record of another patient with the next month number. *)
Fixpoint no_cross_patient_step (df : list EnrollmentRecord) : bool :=
  match df with
  | a :: (b :: _) as df' =>
      (String.eqb (patient_id a) (patient_id b)
       || negb (month_of b - month_of a =? 1))
      && no_cross_patient_step df'
  | _ => true
  end.

(** The patient and the month number of a record. *)
Definition patient_month (r : EnrollmentRecord) : string * Z :=
  (patient_id r, month_of r).

(** The months from that of the start to that of the end of [sp] are a
    maximal run of consecutive months in which the patient of [sp] is
    enrolled: every month in between is an enrolled month, the month
    before and the month after are not. *)
Definition maximal_run (rows : list EnrollmentRecord) (sp : EnrollmentSpan) : Prop :=
  let p := span_patient_id sp in
  let a := month (enrollment_start_date sp) in
  let b := month (enrollment_end_date sp) in
  a <= b
  /\ (forall m, a <= m <= b -> enrolled rows p m)
  /\ ~ enrolled rows p (a - 1)
  /\ ~ enrolled rows p (b + 1).

(** The first and the last day of a month. *)
Definition first_day_of_month (t : Timestamp) : Prop := day t = 1.

Definition last_day_of_month (t : Timestamp) : Prop :=
  day t = days_in_month (year t) (month t).

(** Two spans of a table share a day. *)
Definition spans_overlap (a b : EnrollmentSpan) : bool :=
  Calendar.leb (enrollment_start_date a) (enrollment_end_date b)
  && Calendar.leb (enrollment_start_date b) (enrollment_end_date a).

(** Line 93: the printed check that every record is of year 2023. *)
Definition single_year_check (rows : list EnrollmentRecord) : bool :=
  forallb (fun r => year (month_year r) =? 2023) rows.

(** ** Step 2: data aggregation (lines 141-182) *)

(** A row of [combined]: the columns of [pd.merge(pt_enrollment_span,
    outpt_enrollment_span)], joined on the one shared column
    [patient_id]. *)
Record CombinedRow : Set := mkCombined {
  c_span : EnrollmentSpan;
  c_date : Timestamp;
  c_count : Z
}.

(** Line 159: inner join on [patient_id]; the rows are listed in the
    order of the left frame, and for one span in the order of the visit
    rows. *)
Definition merge (spans : list EnrollmentSpan) (visits : list VisitRecord)
  : list CombinedRow :=
  flat_map
    (fun sp =>
       map (fun v => mkCombined sp (date v) (outpatient_visit_count v))
           (filter (fun v => String.eqb (span_patient_id sp) (visit_patient_id v))
                   visits))
    spans.

(** The condition of lines 162 and 167. *)
Definition in_enrollment (c : CombinedRow) : bool :=
  Calendar.leb (enrollment_start_date (c_span c)) (c_date c)
  && Calendar.leb (c_date c) (enrollment_end_date (c_span c)).

(** Line 167. *)
Definition combined (spans : list EnrollmentSpan) (visits : list VisitRecord)
  : list CombinedRow :=
  filter in_enrollment (merge spans visits).

Definition sum_Z (l : list Z) : Z := fold_right Z.add 0 l.

(** Line 168: [groupby([patient_id, start, end])[count].transform('sum')]. *)
Definition sum_visit_count (rows : list CombinedRow) (k : EnrollmentSpan) : Z :=
  sum_Z (map c_count (Pandas.group_rows span_eqb c_span k rows)).

(** The subset of columns of lines 173 and 175. *)
Definition span_date (c : CombinedRow) : EnrollmentSpan * Timestamp :=
  (c_span c, c_date c).

Definition span_date_eqb (a b : EnrollmentSpan * Timestamp) : bool :=
  span_eqb (fst a) (fst b) && Calendar.eqb (snd a) (snd b).

(** Lines 173-175. *)
Definition distinct_days (rows : list CombinedRow) : list CombinedRow :=
  if Pandas.any_duplicated span_date_eqb span_date rows
  then Pandas.drop_duplicates span_date_eqb span_date rows
  else rows.

(** Line 177: [groupby(...)[count].transform('count')]. *)
Definition count_visit_days (rows : list CombinedRow) (k : EnrollmentSpan) : Z :=
  Z.of_nat (List.length (Pandas.group_rows span_eqb c_span k rows)).

Definition summary_eqb (a b : EnrollmentSummary) : bool :=
  span_eqb (summary_span a) (summary_span b)
  && (ct_outpatient_visits a =? ct_outpatient_visits b)
  && (ct_days_with_outpatient_visit a =? ct_days_with_outpatient_visit b).

(** The table written to [result.csv]: the column [ct_outpatient_visits]
    is computed on [combined] before the rows of one day are collapsed,
    [ct_days_with_outpatient_visit] after. *)
Definition VisitAggregator (spans : list EnrollmentSpan) (visits : list VisitRecord)
  : list EnrollmentSummary :=
  let rows := combined spans visits in
  let days := distinct_days rows in
  Pandas.drop_duplicates summary_eqb (fun s => s)
    (map (fun c => mkSummary (c_span c)
                     (sum_visit_count rows (c_span c))
                     (count_visit_days days (c_span c)))
         days).

(** Line 162: the printed check that every joined row is in its span. *)
Definition all_in_enrollment_check (spans : list EnrollmentSpan)
    (visits : list VisitRecord) : bool :=
  forallb in_enrollment (merge spans visits).

(** *** Vocabulary for the statements about step 2 *)

(** The rows of the visit file of the patient of span [k] whose date
    lies between the start and the end of [k], both included. *)
Definition visits_in_span (k : EnrollmentSpan) (visits : list VisitRecord)
  : list VisitRecord :=
  filter (fun v =>
            String.eqb (span_patient_id k) (visit_patient_id v)
            && (Calendar.leb (enrollment_start_date k) (date v)
                && Calendar.leb (date v) (enrollment_end_date k)))
         visits.

(** Equality of dates is decidable. *)
Definition Timestamp_eq_dec (a b : Timestamp) : {a = b} + {a <> b}.
Proof. decide equality; apply Z.eq_dec. Defined.

(** The number of distinct dates of a list of visit rows. *)
Definition distinct_dates (vs : list VisitRecord) : Z :=
  Z.of_nat (List.length (nodup Timestamp_eq_dec (map date vs))).

(** ** Reading the two files (lines 60-66, 85, 142-155) *)

Inductive PyError : Set := ValueError.

(** The outcome of a run: a value, or an exception that is not caught
    and ends the script. *)
Inductive Outcome (A : Type) : Type :=
| Returned (a : A)
| Raised (e : PyError).

Arguments Returned {A} a.
Arguments Raised {A} e.

Definition bind {A B : Type} (m : Outcome A) (k : A -> Outcome B) : Outcome B :=
  match m with
  | Returned a => k a
  | Raised e => Raised e
  end.

Notation "x <- m ;; k" := (bind m (fun x => k))
  (at level 61, m at next level, right associativity).

Module Strptime.

Definition digit (c : ascii) : option Z :=
  let n := Z.of_N (N_of_ascii c) in
  if (48 <=? n) && (n <=? 57) then Some (n - 48) else None.

Definition nonzero_digit (c : ascii) : option Z :=
  match digit c with
  | Some 0 => None
  | r => r
  end.

(** The fields of a string between the separators ["/"]. *)
Fixpoint fields (s : string) : list string :=
  match s with
  | EmptyString => [EmptyString]
  | String c s' =>
      if Ascii.eqb c "/"%char then EmptyString :: fields s'
      else match fields s' with
           | f :: fs => String c f :: fs
           | [] => [String c EmptyString]
           end
  end.

(** [%m]: [1[0-2]|0[1-9]|[1-9]]. *)
Definition directive_m (f : string) : option Z :=
  match f with
  | String c EmptyString => nonzero_digit c
  | String c1 (String c2 EmptyString) =>
      if Ascii.eqb c1 "0"%char then nonzero_digit c2
      else if Ascii.eqb c1 "1"%char then
             match digit c2 with
             | Some k => if k <=? 2 then Some (10 + k) else None
             | None => None
             end
           else None
  | _ => None
  end.

(** [%d]: [3[0-1]|[1-2]\d|0[1-9]|[1-9]| [1-9]]. *)
Definition directive_d (f : string) : option Z :=
  match f with
  | String c EmptyString => nonzero_digit c
  | String c1 (String c2 EmptyString) =>
      if Ascii.eqb c1 "0"%char || Ascii.eqb c1 " "%char then nonzero_digit c2
      else match digit c1, digit c2 with
           | Some 1, Some k => Some (10 + k)
           | Some 2, Some k => Some (20 + k)
           | Some 3, Some k => if k <=? 1 then Some (30 + k) else None
           | _, _ => None
           end
  | _ => None
  end.

(** [%y]: two digits; values up to 68 are of the 2000s, the others of
    the 1900s. *)
Definition directive_y (f : string) : option Z :=
  match f with
  | String c1 (String c2 EmptyString) =>
      match digit c1, digit c2 with
      | Some a, Some b =>
          let yy := 10 * a + b in
          Some (if yy <=? 68 then 2000 + yy else 1900 + yy)
      | _, _ => None
      end
  | _ => None
  end.

(** Parsing one string against ['%m/%d/%y']: the whole string has to
    match, and the day has to exist in its month. *)
Definition strptime (s : string) : option Timestamp :=
  match fields s with
  | [fm; fd; fy] =>
      match directive_m fm, directive_d fd, directive_y fy with
      | Some m, Some dd, Some y =>
          if dd <=? days_in_month y m then Some (mkTimestamp y m dd)
          else None
      | _, _, _ => None
      end
  | _ => None
  end.

End Strptime.

(** The conversion to [Int64] on plain decimal literals, the form the
    counts of the visit file are written in. *)
Fixpoint decimal_from (acc : Z) (s : string) : option Z :=
  match s with
  | EmptyString => Some acc
  | String c s' =>
      match Strptime.digit c with
      | Some k => decimal_from (10 * acc + k) s'
      | None => None
      end
  end.

Definition decimal_Int64 (s : string) : option Z :=
  match s with
  | EmptyString => None
  | _ => decimal_from 0 s
  end.

(** A line of [patient_id_month_year.csv] as [read_csv] returns it with
    [dtype='string']: [None] is a line whose fields are all missing,
    [Some (patient_id, month_year)] a line with both fields present.
    Lines with only one field missing are outside this development. *)
Definition EnrollmentLine : Set := option (string * string).

(** A line of [outpatient_visits_file.csv]: patient id, date and
    visit count as written in the file. *)
Definition VisitLine : Set := option (string * string * string).

(** [df.dropna(how='all')]. *)
Fixpoint dropna {A : Type} (df : list (option A)) : list A :=
  match df with
  | [] => []
  | None :: df' => dropna df'
  | Some x :: df' => x :: dropna df'
  end.

(** [pd.to_datetime(col, format='%m/%d/%y')] with the default
    [errors='raise']: one string that does not parse raises. *)
Definition to_datetime (s : string) : Outcome Timestamp :=
  match Strptime.strptime s with
  | Some t => Returned t
  | None => Raised ValueError
  end.

Fixpoint mapM {A B : Type} (f : A -> Outcome B) (l : list A) : Outcome (list B) :=
  match l with
  | [] => Returned []
  | x :: l' => y <- f x ;; ys <- mapM f l' ;; Returned (y :: ys)
  end.

(** What step 1 prints and writes. *)
Record Step1Output : Type := mkStep1 {
  printed_single_year : bool;
  printed_span_rows : nat;
  patient_enrollment_span : list EnrollmentSpan
}.

(** Lines 60-66 and 85: the typed rows of the enrollment file. *)
Definition read_enrollment (csv : list EnrollmentLine)
  : Outcome (list EnrollmentRecord) :=
  mapM (fun l : string * string =>
          t <- to_datetime (snd l) ;;
          Returned (mkEnrollment (fst l) t))
       (dropna csv).

(** Lines 60-126 on the lines of the enrollment file. *)
Definition step1 (csv : list EnrollmentLine) : Outcome Step1Output :=
  rows <- read_enrollment csv ;;
  let spans := SpanBuilder rows in
  Returned (mkStep1 (single_year_check rows) (List.length spans) spans).

(** What step 2 prints and writes. *)
Record Step2Output : Type := mkStep2 {
  printed_positive_counts : bool;
  printed_all_in_enrollment : bool;
  result : list EnrollmentSummary;
  printed_distinct_day_counts : nat
}.

(** Line 185: [combined['ct_days_with_outpatient_visit'].nunique()]. *)
Definition nunique (col : list Z) : nat :=
  List.length (Pandas.drop_duplicates Z.eqb (fun n => n) col).

Section Step2.

(** The conversion of a field to [Int64] that [read_csv] applies to the
    column [outpatient_visit_count]; [None] when it raises. *)
Variable parse_Int64 : string -> option Z.

(** Lines 142-146: the count column is typed while the file is read,
    before any row is dropped. *)
Definition typed_line (l : VisitLine) : Outcome (option (string * string * Z)) :=
  match l with
  | None => Returned None
  | Some (p, dt, c) =>
      match parse_Int64 c with
      | Some n => Returned (Some (p, dt, n))
      | None => Raised ValueError
      end
  end.

Definition read_visits (csv : list VisitLine)
  : Outcome (list (option (string * string * Z))) :=
  mapM typed_line csv.

(** Lines 142-182 on the span table and the lines of the visit file. *)
Definition step2 (spans : list EnrollmentSpan) (csv : list VisitLine)
  : Outcome Step2Output :=
  df <- read_visits csv ;;
  let typed := dropna df in
  (* line 152 *)
  let positive := forallb (fun l : string * string * Z => 1 <=? snd l) typed in
  (* line 155 *)
  visits <- mapM (fun l : string * string * Z =>
                    t <- to_datetime (snd (fst l)) ;;
                    Returned (mkVisit (fst (fst l)) t (snd l)))
                 typed ;;
  let out := VisitAggregator spans visits in
  Returned (mkStep2 positive
                    (all_in_enrollment_check spans visits)
                    out
                    (nunique (map ct_days_with_outpatient_visit out))).

(** The whole script: step 2 starts once step 1 has finished. *)
Definition main (enrollment_csv : list EnrollmentLine)
    (visits_csv : list VisitLine) : Outcome (Step1Output * Step2Output) :=
  o1 <- step1 enrollment_csv ;;
  o2 <- step2 (patient_enrollment_span o1) visits_csv ;;
  Returned (o1, o2).

End Step2.

(** ** Writing a header line (gen_csv_file.py) *)

Module Csv.

(** The default dialect of [csv.writer]: delimiter [,], quote character
    (code 34), doubled when it occurs in a field, line terminator CR LF,
    quoting of the fields that need it only. *)
Definition delimiter : ascii := ","%char.
Definition quotechar : ascii := ascii_of_nat 34.
Definition CR : ascii := ascii_of_nat 13.
Definition LF : ascii := ascii_of_nat 10.

Definition lineterminator : string := String CR (String LF EmptyString).

(** A character that makes the writer quote the field it occurs in. *)
Definition special (c : ascii) : bool :=
  Ascii.eqb c delimiter || Ascii.eqb c quotechar
  || Ascii.eqb c CR || Ascii.eqb c LF.

Fixpoint needs_quotes (field : string) : bool :=
  match field with
  | EmptyString => false
  | String c field' => special c || needs_quotes field'
  end.

(** The characters of a field as they are copied into the record: a
    quote character is written twice. *)
Fixpoint copy_field (field : string) : string :=
  match field with
  | EmptyString => EmptyString
  | String c field' =>
      if Ascii.eqb c quotechar
      then String quotechar (String quotechar (copy_field field'))
      else String c (copy_field field')
  end.

Definition quoted (data : string) : string :=
  String quotechar (String.append data (String quotechar EmptyString)).

(** One field of the record. *)
Definition join_append (field : string) : string :=
  if needs_quotes field then quoted (copy_field field) else copy_field field.

(** The fields of the record with the delimiter between them. *)
Definition join_fields (fields : list string) : string :=
  String.concat (String delimiter EmptyString) (map join_append fields).

(** [writer.writerow(fields)]: the text handed to the file.  A record
    that would be empty although the row has a field (the row of one
    empty string) is written as a quoted empty field. *)
Definition writerow (fields : list string) : string :=
  String.append
    (match fields, join_fields fields with
     | _ :: _, EmptyString => quoted EmptyString
     | _, rec => rec
     end)
    lineterminator.

(** *** Vocabulary for the statements about the writer *)

(** Reading a field back from the front of a record: the characters up
    to the closing quote of a quoted field, and the characters up to the
    next special character of a field written as it is. *)
Fixpoint read_quoted (s : string) : option (string * string) :=
  match s with
  | EmptyString => None
  | String c s' =>
      if Ascii.eqb c quotechar then
        match s' with
        | String c' s'' =>
            if Ascii.eqb c' quotechar then
              match read_quoted s'' with
              | Some (f, r) => Some (String quotechar f, r)
              | None => None
              end
            else Some (EmptyString, s')
        | EmptyString => Some (EmptyString, EmptyString)
        end
      else
        match read_quoted s' with
        | Some (f, r) => Some (String c f, r)
        | None => None
        end
  end.

Fixpoint read_plain (s : string) : string * string :=
  match s with
  | EmptyString => (EmptyString, EmptyString)
  | String c s' =>
      if special c then (EmptyString, s)
      else (String c (fst (read_plain s')), snd (read_plain s'))
  end.

Definition read_field (s : string) : option (string * string) :=
  match s with
  | String c s' =>
      if Ascii.eqb c quotechar then read_quoted s' else Some (read_plain s)
  | EmptyString => Some (EmptyString, EmptyString)
  end.

(** What follows a field in a record: the delimiter or the line
    terminator. *)
Definition follows_field (r : string) : Prop :=
  exists c r', r = String c r' /\ (c = delimiter \/ c = CR).

(** The record of a row that is not empty, followed by the line
    terminator, as a first field and what follows it. *)
Definition after_first (fields : list string) : string :=
  match fields with
  | [] => lineterminator
  | _ :: _ =>
      String delimiter (String.append (join_fields fields) lineterminator)
  end.

End Csv.

(** [gen_csv_file(filePath, fileName, fieldNames)]: the path of the file
    that is opened with mode ["w"], and the text that replaces what the
    file held. *)
Definition gen_csv_file (filePath fileName : string) (fieldNames : list string)
  : string * string :=
  (String.append filePath (String "/"%char fileName), Csv.writerow fieldNames).

(** The call of the [__main__] block. *)
Definition gen_csv_file_main (PATH : string) : string * string :=
  gen_csv_file PATH "pt_enrollment_visits.csv"
    ["patient_id"; "enrollment_start_date"; "enrollment_end_date";
     "ct_outpatient_visits"; "ct_days_with_outpatient_visit"]%string.

(** A date of the calendar. *)
Definition valid_date (t : Timestamp) : Prop :=
  1 <= month t <= 12 /\ 1 <= day t <= days_in_month (year t) (month t).

(** * Properties *)

(** ** The order on dates *)

Module CalendarFacts.

Ltac by_cases :=
  repeat match goal with
         | t : Timestamp |- _ => destruct t
         end;
  unfold Calendar.leb, Calendar.ltb, Calendar.eqb, Calendar.compare in *;
  simpl in *;
  repeat match goal with
         | |- context [?x ?= ?y] => destruct (Z.compare_spec x y)
         | H : context [?x ?= ?y] |- _ => destruct (Z.compare_spec x y)
         end;
  try discriminate; try reflexivity; try lia.

Lemma eqb_eq (a b : Timestamp) : Calendar.eqb a b = true <-> a = b.
Proof.
  destruct a as [y1 m1 d1], b as [y2 m2 d2]; unfold Calendar.eqb; simpl.
  rewrite !andb_true_iff, !Z.eqb_eq. split.
  - intros [[-> ->] ->]. reflexivity.
  - intros H. injection H as -> -> ->. auto.
Qed.

Lemma eqb_refl (a : Timestamp) : Calendar.eqb a a = true.
Proof. apply eqb_eq. reflexivity. Qed.

Lemma leb_refl (a : Timestamp) : Calendar.leb a a = true.
Proof. by_cases. Qed.

Lemma leb_total (a b : Timestamp) :
  Calendar.leb a b = true \/ Calendar.leb b a = true.
Proof. by_cases; auto. Qed.

Lemma leb_trans (a b c : Timestamp) :
  Calendar.leb a b = true -> Calendar.leb b c = true -> Calendar.leb a c = true.
Proof. by_cases. Qed.

Lemma leb_antisym (a b : Timestamp) :
  Calendar.leb a b = true -> Calendar.leb b a = true -> a = b.
Proof. by_cases; intros; f_equal; lia. Qed.

Lemma leb_false_ltb (a b : Timestamp) :
  Calendar.leb a b = false -> Calendar.ltb b a = true.
Proof. by_cases. Qed.

Lemma ltb_leb (a b : Timestamp) :
  Calendar.ltb a b = true -> Calendar.leb a b = true.
Proof. by_cases. Qed.

Lemma ltb_not_leb (a b : Timestamp) :
  Calendar.ltb a b = true -> Calendar.leb b a = false.
Proof. by_cases. Qed.

(** Within one year the order of two dates follows their months. *)
Lemma leb_same_year_month (a b : Timestamp) :
  year a = year b -> Calendar.leb a b = true -> month a <= month b.
Proof. by_cases. Qed.

Lemma month_lt_ltb (a b : Timestamp) :
  year a = year b -> month a < month b -> Calendar.ltb a b = true.
Proof. by_cases. Qed.

Lemma min_cases (a b : Timestamp) :
  (Calendar.min a b = a /\ Calendar.leb a b = true)
  \/ (Calendar.min a b = b /\ Calendar.leb b a = true).
Proof.
  unfold Calendar.min. destruct (Calendar.leb a b) eqn:E; auto.
  right. split; auto. destruct (leb_total a b); congruence.
Qed.

Lemma max_cases (a b : Timestamp) :
  (Calendar.max a b = b /\ Calendar.leb a b = true)
  \/ (Calendar.max a b = a /\ Calendar.leb b a = true).
Proof.
  unfold Calendar.max. destruct (Calendar.leb a b) eqn:E; auto.
  right. split; auto. destruct (leb_total a b); congruence.
Qed.

End CalendarFacts.

(** ** Equality tests on rows *)

Lemma span_eqb_eq (a b : EnrollmentSpan) : span_eqb a b = true <-> a = b.
Proof.
  destruct a as [p1 s1 e1], b as [p2 s2 e2]; unfold span_eqb; simpl.
  rewrite !andb_true_iff, String.eqb_eq, !CalendarFacts.eqb_eq. split.
  - intros [[-> ->] ->]. reflexivity.
  - intros H. injection H as -> -> ->. auto.
Qed.

Lemma span_eqb_refl (a : EnrollmentSpan) : span_eqb a a = true.
Proof. apply span_eqb_eq. reflexivity. Qed.

Lemma span_eqb_neq (a b : EnrollmentSpan) : span_eqb a b = false <-> a <> b.
Proof.
  rewrite <- span_eqb_eq. destruct (span_eqb a b); split; congruence.
Qed.

Lemma span_date_eqb_eq (a b : EnrollmentSpan * Timestamp) :
  span_date_eqb a b = true <-> a = b.
Proof.
  destruct a as [k1 d1], b as [k2 d2]; unfold span_date_eqb; simpl.
  rewrite andb_true_iff, span_eqb_eq, CalendarFacts.eqb_eq. split.
  - intros [-> ->]. reflexivity.
  - intros H. injection H as -> ->. auto.
Qed.

Lemma summary_eqb_eq (a b : EnrollmentSummary) : summary_eqb a b = true <-> a = b.
Proof.
  destruct a as [k1 v1 n1], b as [k2 v2 n2]; unfold summary_eqb; simpl.
  rewrite !andb_true_iff, span_eqb_eq, !Z.eqb_eq. split.
  - intros [[-> ->] ->]. reflexivity.
  - intros H. injection H as -> -> ->. auto.
Qed.

(** ** Facts about the pandas primitives *)

Module PandasFacts.

Import Pandas.

Section DropDuplicates.
Variables A K : Type.
Variable key_eqb : K -> K -> bool.
Variable key : A -> K.
Hypothesis key_eqb_eq : forall a b, key_eqb a b = true <-> a = b.

Lemma key_eqb_refl k : key_eqb k k = true.
Proof. apply key_eqb_eq. reflexivity. Qed.

Lemma key_eqb_false a b : key_eqb a b = false <-> a <> b.
Proof.
  rewrite <- key_eqb_eq. destruct (key_eqb a b); split; congruence.
Qed.

Lemma drop_duplicates_incl l x : In x (drop_duplicates key_eqb key l) -> In x l.
Proof.
  induction l as [|a l IH]; simpl; auto.
  intros [->|H]; auto.
  apply filter_In in H. right. apply IH, H.
Qed.

Lemma drop_duplicates_keys l x :
  In x l -> exists y, In y (drop_duplicates key_eqb key l) /\ key y = key x.
Proof.
  induction l as [|a l IH]; simpl; [tauto|].
  intros [->|H].
  - exists x. auto.
  - destruct (IH H) as (y & Hy & Hk).
    destruct (key_eqb (key a) (key y)) eqn:E.
    + exists a. split; auto. apply key_eqb_eq in E. congruence.
    + exists y. split; auto. right. apply filter_In. rewrite E. auto.
Qed.

Lemma drop_duplicates_NoDup l : NoDup (map key (drop_duplicates key_eqb key l)).
Proof.
  induction l as [|a l IH]; simpl; constructor.
  - rewrite in_map_iff. intros (y & Hk & Hy).
    apply filter_In in Hy. destruct Hy as [_ Hy].
    rewrite <- Hk, key_eqb_refl in Hy. discriminate.
  - clear - IH. induction (drop_duplicates key_eqb key l) as [|b m IHm]; simpl; [constructor|].
    inversion IH as [|? ? Hnin Hnd]; subst.
    destruct (negb (key_eqb (key a) (key b))); simpl; auto.
    constructor; auto.
    rewrite in_map_iff in *. intros (y & Hk & Hy).
    apply Hnin. exists y. split; auto. apply filter_In in Hy. tauto.
Qed.

Lemma drop_duplicates_length l : (List.length (drop_duplicates key_eqb key l) <= List.length l)%nat.
Proof.
  induction l as [|a l IH]; simpl; auto.
  pose proof (filter_length_le
                (fun y => negb (key_eqb (key a) (key y))) (drop_duplicates key_eqb key l)).
  lia.
Qed.

Lemma filter_all (f : A -> bool) l :
  (forall x, In x l -> f x = true) -> filter f l = l.
Proof.
  induction l as [|a l IH]; simpl; auto.
  intros H. rewrite (H a (or_introl eq_refl)). f_equal. auto.
Qed.

Lemma filter_filter_swap (f g : A -> bool) l :
  filter f (filter g l) = filter g (filter f l).
Proof.
  induction l as [|a l IH]; simpl; auto.
  destruct (f a) eqn:Ef, (g a) eqn:Eg; simpl;
    rewrite ?Ef, ?Eg, IH; reflexivity.
Qed.

(** Selecting the rows of some keys commutes with dropping the
    duplicates. *)
Lemma filter_drop_duplicates (f : A -> bool) l :
  (forall x y, key x = key y -> f x = f y) ->
  filter f (drop_duplicates key_eqb key l) = drop_duplicates key_eqb key (filter f l).
Proof.
  intros Hf. induction l as [|a l IH]; simpl; auto.
  destruct (f a) eqn:Ea; simpl.
  - rewrite filter_filter_swap, IH. reflexivity.
  - rewrite <- IH. rewrite filter_filter_swap.
    apply filter_all. intros y Hy.
    apply filter_In in Hy. destruct Hy as [_ Hy].
    destruct (key_eqb (key a) (key y)) eqn:E; auto.
    apply key_eqb_eq in E. apply Hf in E. congruence.
Qed.

Lemma any_duplicated_false l :
  any_duplicated key_eqb key l = false -> drop_duplicates key_eqb key l = l.
Proof.
  induction l as [|a l IH]; simpl; auto.
  intros H. apply orb_false_iff in H. destruct H as [Hex Hdup].
  rewrite (IH Hdup). f_equal.
  apply filter_all. intros y Hy.
  destruct (key_eqb (key a) (key y)) eqn:E; auto.
  assert (existsb (fun y => key_eqb (key a) (key y)) l = true) as Hc
    by (apply existsb_exists; eauto).
  congruence.
Qed.

Lemma in_map_drop_duplicates l k :
  In k (map key (drop_duplicates key_eqb key l)) <-> In k (map key l).
Proof.
  rewrite !in_map_iff. split.
  - intros (x & Hk & Hx). exists x. split; auto.
    apply drop_duplicates_incl, Hx.
  - intros (x & Hk & Hx).
    destruct (drop_duplicates_keys _ _ Hx) as (y & Hy & Hyk).
    exists y. split; congruence.
Qed.
End DropDuplicates.

(** Dropping whole-row duplicates keeps exactly the rows that occur. *)
Lemma in_drop_duplicates_rows (A : Type) (eqb : A -> A -> bool)
    (eqb_eq : forall a b, eqb a b = true <-> a = b) (l : list A) (x : A) :
  In x (drop_duplicates eqb (fun a => a) l) <-> In x l.
Proof.
  split.
  - apply drop_duplicates_incl.
  - intros H. destruct (drop_duplicates_keys eqb (fun a => a) eqb_eq _ _ H)
      as (y & Hy & ->). exact Hy.
Qed.

Section SortFacts.
Variable A : Type.
Variable leb : A -> A -> bool.
Hypothesis leb_total : forall a b, leb a b = true \/ leb b a = true.
Hypothesis leb_trans :
  forall a b c, leb a b = true -> leb b c = true -> leb a c = true.
Hypothesis leb_antisym : forall a b, leb a b = true -> leb b a = true -> a = b.

Lemma insert_sorted_perm x l : Permutation (x :: l) (insert_sorted leb x l).
Proof.
  induction l as [|y l IH]; simpl; auto.
  destruct (leb x y); auto.
  rewrite perm_swap. constructor. exact IH.
Qed.

Lemma sort_by_perm l : Permutation l (sort_by leb l).
Proof.
  induction l as [|x l IH]; simpl; auto.
  rewrite <- insert_sorted_perm. constructor. exact IH.
Qed.

Lemma insert_sorted_sorted x l :
  StronglySorted (fun a b => leb a b = true) l ->
  StronglySorted (fun a b => leb a b = true) (insert_sorted leb x l).
Proof.
  induction 1 as [|y l Hs IH Hall]; simpl.
  - repeat constructor.
  - destruct (leb x y) eqn:E.
    + constructor.
      * constructor; auto.
      * constructor; [exact E|].
        eapply Forall_impl; [|exact Hall].
        intros z Hz. simpl in *. eauto.
    + constructor; auto.
      rewrite Forall_forall in *. intros z Hz.
      apply (Permutation_in _ (Permutation_sym (insert_sorted_perm x l))) in Hz.
      destruct Hz as [<-|Hz]; auto.
      destruct (leb_total x y); congruence.
Qed.

Lemma sort_by_sorted l :
  StronglySorted (fun a b => leb a b = true) (sort_by leb l).
Proof.
  induction l as [|x l IH]; simpl.
  - constructor.
  - apply insert_sorted_sorted, IH.
Qed.

(** A sorted frame is determined by the rows it holds. *)
Lemma sorted_perm_eq l1 l2 :
  StronglySorted (fun a b => leb a b = true) l1 ->
  StronglySorted (fun a b => leb a b = true) l2 ->
  Permutation l1 l2 -> l1 = l2.
Proof.
  intros H1. revert l2.
  induction H1 as [|a l1 Hs1 IH Ha]; intros l2 H2 Hp.
  - apply Permutation_nil in Hp. auto.
  - destruct H2 as [|b l2 Hs2 Hb].
    + apply Permutation_sym, Permutation_nil in Hp. discriminate.
    + assert (a = b) as ->.
      { rewrite Forall_forall in Ha, Hb.
        pose proof (Permutation_in a Hp (or_introl eq_refl)) as Hin1.
        pose proof (Permutation_in b (Permutation_sym Hp) (or_introl eq_refl))
          as Hin2.
        destruct Hin1 as [Hin1|Hin1]; [congruence|].
        destruct Hin2 as [Hin2|Hin2]; [congruence|].
        apply leb_antisym; [apply Ha|apply Hb]; assumption. }
      f_equal. apply IH; auto.
      eapply Permutation_cons_inv. exact Hp.
Qed.

Lemma sort_by_perm_eq l1 l2 :
  Permutation l1 l2 -> sort_by leb l1 = sort_by leb l2.
Proof.
  intros Hp. apply sorted_perm_eq; try apply sort_by_sorted.
  rewrite <- !sort_by_perm. exact Hp.
Qed.
End SortFacts.

End PandasFacts.

(** ** The sorted enrollment frame *)

Section SortedFrame.

Lemma patient_lt_irrefl (a : string) : ~ String_as_OT.lt a a.
Proof. apply (StrictOrder_Irreflexive (R := String_as_OT.lt)). Qed.

Lemma patient_lt_asym (a b : string) :
  String_as_OT.lt a b -> String_as_OT.lt b a -> False.
Proof.
  intros H1 H2. apply (patient_lt_irrefl (a := a)).
  eapply (StrictOrder_Transitive (R := String_as_OT.lt)); eassumption.
Qed.

Lemma patient_compare_eq (a b : string) :
  String_as_OT.compare a b = Eq <-> a = b.
Proof.
  destruct (String_as_OT.compare_spec a b) as [H|H|H]; split;
    try congruence; intros ->; exfalso; exact (patient_lt_irrefl H).
Qed.

Lemma patient_compare_lt_gt (a b : string) :
  String_as_OT.compare a b = Lt <-> String_as_OT.compare b a = Gt.
Proof.
  destruct (String_as_OT.compare_spec a b) as [H|H|H],
           (String_as_OT.compare_spec b a) as [H'|H'|H'];
    split; intros X; try discriminate X; try reflexivity;
    exfalso; unfold String_as_OT.eq in *; subst;
    first [ exact (patient_lt_irrefl H)
          | exact (patient_lt_irrefl H')
          | exact (patient_lt_asym H H') ].
Qed.

Lemma patient_lt_trans (a b c : string) :
  String_as_OT.compare a b = Lt -> String_as_OT.compare b c = Lt ->
  String_as_OT.compare a c = Lt.
Proof. apply (StrictOrder_Transitive (R := String_as_OT.lt)). Qed.

Lemma enrollment_leb_total (a b : EnrollmentRecord) :
  enrollment_leb a b = true \/ enrollment_leb b a = true.
Proof.
  unfold enrollment_leb.
  destruct (String_as_OT.compare (patient_id a) (patient_id b)) eqn:E; auto.
  - apply patient_compare_eq in E.
    assert (String_as_OT.compare (patient_id b) (patient_id a) = Eq) as ->
      by (apply patient_compare_eq; auto).
    apply CalendarFacts.leb_total.
  - assert (String_as_OT.compare (patient_id b) (patient_id a) = Lt) as ->
      by (apply patient_compare_lt_gt; auto).
    auto.
Qed.

Lemma enrollment_leb_trans (a b c : EnrollmentRecord) :
  enrollment_leb a b = true -> enrollment_leb b c = true ->
  enrollment_leb a c = true.
Proof.
  unfold enrollment_leb.
  destruct (String_as_OT.compare (patient_id a) (patient_id b)) eqn:E1;
    try discriminate;
    destruct (String_as_OT.compare (patient_id b) (patient_id c)) eqn:E2;
    try discriminate; intros H1 H2.
  - apply patient_compare_eq in E1, E2.
    assert (String_as_OT.compare (patient_id a) (patient_id c) = Eq) as ->
      by (apply patient_compare_eq; congruence).
    eapply CalendarFacts.leb_trans; eauto.
  - apply patient_compare_eq in E1. rewrite E1, E2. reflexivity.
  - apply patient_compare_eq in E2. rewrite <- E2, E1. reflexivity.
  - rewrite (patient_lt_trans _ _ _ E1 E2). reflexivity.
Qed.

Lemma enrollment_leb_antisym (a b : EnrollmentRecord) :
  enrollment_leb a b = true -> enrollment_leb b a = true -> a = b.
Proof.
  unfold enrollment_leb.
  destruct (String_as_OT.compare (patient_id a) (patient_id b)) eqn:E1;
    try discriminate; intros H1.
  - apply patient_compare_eq in E1.
    assert (String_as_OT.compare (patient_id b) (patient_id a) = Eq) as ->
      by (apply patient_compare_eq; auto).
    intros H2. destruct a, b; simpl in *. f_equal; auto.
    apply CalendarFacts.leb_antisym; auto.
  - apply patient_compare_lt_gt in E1. rewrite E1. discriminate.
Qed.

(** What the sort order says about two rows in turn. *)
Lemma enrollment_leb_cases (a b : EnrollmentRecord) :
  enrollment_leb a b = true ->
  String_as_OT.compare (patient_id a) (patient_id b) = Lt
  \/ (patient_id a = patient_id b
      /\ Calendar.leb (month_year a) (month_year b) = true).
Proof.
  unfold enrollment_leb.
  destruct (String_as_OT.compare (patient_id a) (patient_id b)) eqn:E;
    try discriminate; auto.
  apply patient_compare_eq in E. auto.
Qed.

Lemma sort_values_perm rows : Permutation rows (sort_values rows).
Proof. apply PandasFacts.sort_by_perm. Qed.

Lemma sort_values_sorted rows :
  StronglySorted (fun a b => enrollment_leb a b = true) (sort_values rows).
Proof.
  apply PandasFacts.sort_by_sorted.
  - apply enrollment_leb_total.
  - apply enrollment_leb_trans.
Qed.

Lemma sort_values_perm_eq rows1 rows2 :
  Permutation rows1 rows2 -> sort_values rows1 = sort_values rows2.
Proof.
  apply PandasFacts.sort_by_perm_eq.
  - apply enrollment_leb_total.
  - apply enrollment_leb_trans.
  - apply enrollment_leb_antisym.
Qed.

Lemma in_sort_values rows r : In r (sort_values rows) <-> In r rows.
Proof.
  split; apply Permutation_in;
    [apply Permutation_sym|]; apply sort_values_perm.
Qed.

End SortedFrame.

(** ** The [groups] column *)

Section Labels.

Import Pandas.

Lemma labels_from_cons prev acc r df :
  labels_from prev acc (r :: df)
  = next_label prev acc r
      :: labels_from (Some (month_of r)) (next_label prev acc r) df.
Proof. reflexivity. Qed.

Lemma labels_from_length prev acc df :
  List.length (labels_from prev acc df) = List.length df.
Proof.
  revert prev acc. induction df as [|r df IH]; intros; auto.
  rewrite labels_from_cons. simpl. f_equal. apply IH.
Qed.

Lemma next_label_ge prev acc r : (acc <= next_label prev acc r)%nat.
Proof. unfold next_label. destruct prev; [destruct (negb _)|]; lia. Qed.

Lemma labels_from_ge prev acc df x :
  In x (combine df (labels_from prev acc df)) -> (acc <= snd x)%nat.
Proof.
  revert prev acc. induction df as [|r df IH]; intros prev acc; [simpl; tauto|].
  rewrite labels_from_cons. simpl. intros [<-|H].
  - apply next_label_ge.
  - apply IH in H. pose proof (next_label_ge prev acc r). lia.
Qed.

(** Labels never decrease along the frame. *)
Lemma labels_from_mono prev acc df T1 x T2 y :
  combine df (labels_from prev acc df) = T1 ++ x :: T2 ->
  In y T2 -> (snd x <= snd y)%nat.
Proof.
  revert prev acc T1. induction df as [|r df IH]; intros prev acc T1.
  - destruct T1; discriminate.
  - rewrite labels_from_cons. simpl. destruct T1 as [|z T1]; simpl.
    + intros H. injection H as <- <-. simpl. apply labels_from_ge.
    + intros H. injection H as _ H. eapply IH, H.
Qed.

(** A row keeps the label of the row before exactly when its month
    number is one more. *)
Lemma labels_from_step prev acc df T1 x y T2 :
  combine df (labels_from prev acc df) = T1 ++ x :: y :: T2 ->
  snd y = if month_of (fst y) - month_of (fst x) =? 1 then snd x else S (snd x).
Proof.
  revert prev acc T1. induction df as [|r df IH]; intros prev acc T1.
  - destruct T1; discriminate.
  - rewrite labels_from_cons. simpl. destruct T1 as [|z T1]; simpl.
    + intros H. injection H as <- H. simpl.
      destruct df as [|r' df]; [discriminate|].
      rewrite labels_from_cons in H. simpl in H. injection H as <- _.
      simpl. unfold next_label, month_of.
      destruct (month (month_year r') - month (month_year r) =? 1); reflexivity.
    + intros H. injection H as _ H. eapply IH, H.
Qed.

Lemma labelled_mono df T1 x T2 y :
  labelled df = T1 ++ x :: T2 -> In y T2 -> (snd x <= snd y)%nat.
Proof. apply labels_from_mono. Qed.

Lemma labelled_step df T1 x y T2 :
  labelled df = T1 ++ x :: y :: T2 ->
  snd y = if month_of (fst y) - month_of (fst x) =? 1 then snd x else S (snd x).
Proof. apply labels_from_step. Qed.

Lemma groups_length df : List.length (groups df) = List.length df.
Proof. apply labels_from_length. Qed.

Lemma map_fst_labelled df : map fst (labelled df) = df.
Proof.
  unfold labelled. generalize (groups_length df). generalize (groups df).
  induction df as [|r df IH]; intros [|g gs] H; simpl in *;
    try discriminate; auto.
  f_equal. apply IH. lia.
Qed.

Lemma in_labelled_record df x : In x (labelled df) -> In (fst x) df.
Proof.
  intros H. rewrite <- (map_fst_labelled df). apply in_map, H.
Qed.

Lemma in_record_labelled df r : In r df -> exists g, In (r, g) (labelled df).
Proof.
  intros H. rewrite <- (map_fst_labelled df) in H.
  apply in_map_iff in H. destruct H as ([r' g] & <- & H). eauto.
Qed.

End Labels.

(** ** The columns [enrollment_start_date] and [enrollment_end_date] *)

Section SpanColumns.

Import Pandas.

Lemma fold_left_min_spec xs x :
  In (fold_left Calendar.min xs x) (x :: xs)
  /\ forall y, In y (x :: xs) ->
               Calendar.leb (fold_left Calendar.min xs x) y = true.
Proof.
  revert x. induction xs as [|a xs IH]; intros x; simpl.
  - split; auto. intros y [<-|[]]. apply CalendarFacts.leb_refl.
  - destruct (IH (Calendar.min x a)) as [Hin Hle]. split.
    + destruct Hin as [Hin|Hin]; [|right; right; exact Hin].
      rewrite <- Hin.
      destruct (CalendarFacts.min_cases x a) as [[E _]|[E _]];
        rewrite E; auto.
    + intros y Hy.
      assert (Calendar.leb (fold_left Calendar.min xs (Calendar.min x a))
                           (Calendar.min x a) = true) as Hm
          by (apply Hle; left; reflexivity).
      destruct Hy as [<-|[<-|Hy]].
      * eapply CalendarFacts.leb_trans; [exact Hm|].
        destruct (CalendarFacts.min_cases x a) as [[E L]|[E L]];
          rewrite E; auto using CalendarFacts.leb_refl.
      * eapply CalendarFacts.leb_trans; [exact Hm|].
        destruct (CalendarFacts.min_cases x a) as [[E L]|[E L]];
          rewrite E; auto using CalendarFacts.leb_refl.
      * apply Hle. right. exact Hy.
Qed.

Lemma fold_left_max_spec xs x :
  In (fold_left Calendar.max xs x) (x :: xs)
  /\ forall y, In y (x :: xs) ->
               Calendar.leb y (fold_left Calendar.max xs x) = true.
Proof.
  revert x. induction xs as [|a xs IH]; intros x; simpl.
  - split; auto. intros y [<-|[]]. apply CalendarFacts.leb_refl.
  - destruct (IH (Calendar.max x a)) as [Hin Hle]. split.
    + destruct Hin as [Hin|Hin]; [|right; right; exact Hin].
      rewrite <- Hin.
      destruct (CalendarFacts.max_cases x a) as [[E _]|[E _]];
        rewrite E; auto.
    + intros y Hy.
      assert (Calendar.leb (Calendar.max x a)
                (fold_left Calendar.max xs (Calendar.max x a)) = true) as Hm
          by (apply Hle; left; reflexivity).
      destruct Hy as [<-|[<-|Hy]].
      * eapply CalendarFacts.leb_trans; [|exact Hm].
        destruct (CalendarFacts.max_cases x a) as [[E L]|[E L]];
          rewrite E; auto using CalendarFacts.leb_refl.
      * eapply CalendarFacts.leb_trans; [|exact Hm].
        destruct (CalendarFacts.max_cases x a) as [[E L]|[E L]];
          rewrite E; auto using CalendarFacts.leb_refl.
      * apply Hle. right. exact Hy.
Qed.

(** On a group that is not empty the aggregate ['min'] is the earliest
    of its dates, and ['max'] the latest. *)
Lemma aggregate_min_spec dflt l :
  l <> [] ->
  In (aggregate Calendar.min dflt l) l
  /\ forall y, In y l -> Calendar.leb (aggregate Calendar.min dflt l) y = true.
Proof.
  destruct l as [|x xs]; [congruence|]. intros _. apply fold_left_min_spec.
Qed.

Lemma aggregate_max_spec dflt l :
  l <> [] ->
  In (aggregate Calendar.max dflt l) l
  /\ forall y, In y l -> Calendar.leb y (aggregate Calendar.max dflt l) = true.
Proof.
  destruct l as [|x xs]; [congruence|]. intros _. apply fold_left_max_spec.
Qed.

Lemma aggregate_dflt op d1 d2 l : l <> [] -> aggregate op d1 l = aggregate op d2 l.
Proof. destruct l; [congruence|reflexivity]. Qed.

Lemma group_values_run df gs g :
  group_values gs (map month_year df) g
  = map month_year
      (map fst (filter (fun x : EnrollmentRecord * nat => Nat.eqb (snd x) g)
                       (combine df gs))).
Proof.
  unfold group_values. revert gs.
  induction df as [|r df IH]; intros [|h gs]; simpl; auto.
  destruct (Nat.eqb h g); simpl; rewrite IH; reflexivity.
Qed.

Lemma combine_columns (A G B C V : Type) (f : A -> V)
    (Fs : G * V -> B) (Fe : G * V -> C) (l : list A) (gs : list G) :
  combine l
    (combine gs
       (combine (map Fs (combine gs (map f l))) (map Fe (combine gs (map f l)))))
  = map (fun x : A * G =>
           (fst x, (snd x, (Fs (snd x, f (fst x)), Fe (snd x, f (fst x))))))
        (combine l gs).
Proof.
  revert gs. induction l as [|a l IH]; intros [|g gs]; simpl; auto.
  f_equal. apply IH.
Qed.

(** Row by row, the frame holds the record, its label, and the
    earliest and latest date of the run with that label. *)
Lemma frame_labelled df :
  frame df
  = map (fun x : EnrollmentRecord * nat =>
           (fst x,
            (snd x,
             (aggregate Calendar.min (month_year (fst x))
                (map month_year (run_of df (snd x))),
              aggregate Calendar.max (month_year (fst x))
                (map month_year (run_of df (snd x)))))))
        (labelled df).
Proof.
  unfold frame, enrollment_start_col, enrollment_end_col, transform, labelled.
  rewrite (combine_columns month_year
             (fun gv => aggregate Calendar.min (snd gv)
                          (group_values (groups df) (map month_year df) (fst gv)))
             (fun gv => aggregate Calendar.max (snd gv)
                          (group_values (groups df) (map month_year df) (fst gv)))).
  apply map_ext. intros [r g]. simpl.
  rewrite group_values_run. reflexivity.
Qed.

Lemma in_run_of df g r : In r (run_of df g) <-> In (r, g) (labelled df).
Proof.
  unfold run_of. rewrite in_map_iff. split.
  - intros ([r' g'] & <- & H). apply filter_In in H. simpl in H.
    destruct H as [H E]. apply Nat.eqb_eq in E. subst. exact H.
  - intros H. exists (r, g). split; auto. apply filter_In. split; auto.
    simpl. apply Nat.eqb_refl.
Qed.

(** Before line 122, every row of the span table comes from a record
    [r] of some run: it holds the earliest and the latest date of the
    run, and [r] holds one of these two dates. *)
Lemma in_boundary_spans df sp :
  In sp (map to_span (boundary_rows df)) ->
  exists r g rs re,
    In (r, g) (labelled df)
    /\ In rs (run_of df g)
    /\ In re (run_of df g)
    /\ (forall r', In r' (run_of df g) ->
                   Calendar.leb (month_year rs) (month_year r') = true
                   /\ Calendar.leb (month_year r') (month_year re) = true)
    /\ (month_year r = month_year rs \/ month_year r = month_year re)
    /\ sp = mkSpan (patient_id r) (month_year rs) (month_year re).
Proof.
  intros H. apply in_map_iff in H. destruct H as (x & <- & H).
  unfold boundary_rows in H. apply filter_In in H. destruct H as [H Hb].
  rewrite frame_labelled in H.
  apply in_map_iff in H. destruct H as ([r g] & <- & H).
  simpl in *. unfold frame_start, frame_end, frame_record in *. simpl in *.
  assert (map month_year (run_of df g) <> []) as Hne.
  { assert (In r (run_of df g)) as Hr by (apply in_run_of, H).
    intros E. apply (in_map month_year) in Hr. rewrite E in Hr. exact Hr. }
  destruct (aggregate_min_spec (month_year r) Hne) as [Hs1 Hs2].
  destruct (aggregate_max_spec (month_year r) Hne) as [He1 He2].
  apply in_map_iff in Hs1. destruct Hs1 as (rs & Ers & Hrs).
  apply in_map_iff in He1. destruct He1 as (re & Ere & Hre).
  exists r, g, rs, re. repeat split; auto.
  - rewrite Ers. apply Hs2. apply in_map. assumption.
  - rewrite Ere. apply He2. apply in_map. assumption.
  - apply orb_true_iff in Hb.
    destruct Hb as [Hb|Hb]; apply CalendarFacts.eqb_eq in Hb; [left|right]; congruence.
  - unfold to_span. simpl. rewrite Ers, Ere. reflexivity.
Qed.

(** Every emitted span starts on the earliest date of a run and ends on
    the last day of the month of the latest date of that run. *)
Lemma in_SpanBuilder_run rows sp :
  In sp (SpanBuilder rows) ->
  exists r g rs re,
    In (r, g) (labelled (sort_values rows))
    /\ In rs (run_of (sort_values rows) g)
    /\ In re (run_of (sort_values rows) g)
    /\ (forall r', In r' (run_of (sort_values rows) g) ->
                   Calendar.leb (month_year rs) (month_year r') = true
                   /\ Calendar.leb (month_year r') (month_year re) = true)
    /\ (month_year r = month_year rs \/ month_year r = month_year re)
    /\ sp = mkSpan (patient_id r) (month_year rs) (MonthEnd0 (month_year re)).
Proof.
  unfold SpanBuilder. intros H.
  apply in_map_iff in H. destruct H as (sp0 & <- & H).
  apply PandasFacts.drop_duplicates_incl in H.
  apply in_boundary_spans in H.
  destruct H as (r & g & rs & re & H1 & H2 & H3 & H4 & H5 & ->).
  exists r, g, rs, re. auto 10.
Qed.

End SpanColumns.

(** ** The joined frame of step 2 *)

Section Combined.

Import Pandas.

Lemma in_merge spans visits c :
  In c (merge spans visits) <->
  exists sp v, In sp spans /\ In v visits
               /\ span_patient_id sp = visit_patient_id v
               /\ c = mkCombined sp (date v) (outpatient_visit_count v).
Proof.
  unfold merge. rewrite in_flat_map. split.
  - intros (sp & Hsp & H). apply in_map_iff in H. destruct H as (v & <- & H).
    apply filter_In in H. destruct H as [Hv E]. apply String.eqb_eq in E.
    exists sp, v. auto.
  - intros (sp & v & Hsp & Hv & E & ->). exists sp. split; auto.
    apply in_map_iff. exists v. split; auto.
    apply filter_In. split; auto. apply String.eqb_eq, E.
Qed.

Lemma in_combined spans visits c :
  In c (combined spans visits) <->
  exists sp v, In sp spans /\ In v visits
               /\ span_patient_id sp = visit_patient_id v
               /\ Calendar.leb (enrollment_start_date sp) (date v) = true
               /\ Calendar.leb (date v) (enrollment_end_date sp) = true
               /\ c = mkCombined sp (date v) (outpatient_visit_count v).
Proof.
  unfold combined. rewrite filter_In, in_merge. unfold in_enrollment. split.
  - intros ((sp & v & Hsp & Hv & E & ->) & H). simpl in H.
    apply andb_true_iff in H. destruct H. exists sp, v. auto 10.
  - intros (sp & v & Hsp & Hv & E & H1 & H2 & ->). split.
    + exists sp, v. auto.
    + simpl. rewrite H1, H2. reflexivity.
Qed.

Lemma combined_cons sp spans visits :
  combined (sp :: spans) visits
  = map (fun v => mkCombined sp (date v) (outpatient_visit_count v))
        (visits_in_span sp visits)
    ++ combined spans visits.
Proof.
  unfold combined, merge. simpl. rewrite filter_app. f_equal.
  unfold visits_in_span. induction visits as [|v visits IH]; simpl; auto.
  destruct (String.eqb (span_patient_id sp) (visit_patient_id v)); simpl; auto.
  unfold in_enrollment at 1. simpl.
  destruct (Calendar.leb (enrollment_start_date sp) (date v)
            && Calendar.leb (date v) (enrollment_end_date sp));
    simpl; rewrite IH; reflexivity.
Qed.

Lemma visits_in_span_app k l1 l2 :
  visits_in_span k (l1 ++ l2) = visits_in_span k l1 ++ visits_in_span k l2.
Proof. apply filter_app. Qed.

(** The rows of one span in the joined frame are the visit rows in that
    span, provided the span table holds the span once. *)
Lemma group_rows_combined spans visits k :
  NoDup spans -> In k spans ->
  group_rows span_eqb c_span k (combined spans visits)
  = map (fun v => mkCombined k (date v) (outpatient_visit_count v))
        (visits_in_span k visits).
Proof.
  unfold group_rows. induction 1 as [|sp spans Hnin Hnd IH]; [intros []|].
  intros Hk. rewrite combined_cons, filter_app.
  destruct (span_eqb k sp) eqn:E.
  - apply span_eqb_eq in E. subst sp.
    rewrite PandasFacts.filter_all.
    + rewrite <- app_nil_r. f_equal.
      destruct (filter _ (combined spans visits)) as [|c l] eqn:F; auto.
      assert (In c (c :: l)) as Hc by (left; reflexivity).
      rewrite <- F in Hc. apply filter_In in Hc. destruct Hc as [Hc Ec].
      apply span_eqb_eq in Ec. apply in_combined in Hc.
      destruct Hc as (sp & v & Hsp & _ & _ & _ & _ & ->). simpl in Ec.
      subst. contradiction.
    + intros c Hc. apply in_map_iff in Hc. destruct Hc as (v & <- & _).
      simpl. apply span_eqb_refl.
  - destruct Hk as [->|Hk]; [rewrite span_eqb_refl in E; discriminate|].
    rewrite <- (IH Hk). rewrite <- (app_nil_l (filter _ (combined spans visits))) at 2.
    f_equal.
    destruct (filter _ (map _ _)) as [|c l] eqn:F; auto.
    assert (In c (c :: l)) as Hc by (left; reflexivity).
    rewrite <- F in Hc. apply filter_In in Hc. destruct Hc as [Hc Ec].
    apply in_map_iff in Hc. destruct Hc as (v & <- & _). simpl in Ec.
    congruence.
Qed.

Lemma distinct_days_eq rows :
  distinct_days rows = drop_duplicates span_date_eqb span_date rows.
Proof.
  unfold distinct_days.
  destruct (any_duplicated span_date_eqb span_date rows) eqn:E; auto.
  symmetry.
  apply PandasFacts.any_duplicated_false. exact E.
Qed.

(** The rows of one span that remain once the rows of a day are
    collapsed. *)
Lemma group_rows_distinct_days rows k :
  group_rows span_eqb c_span k (distinct_days rows)
  = drop_duplicates span_date_eqb span_date (group_rows span_eqb c_span k rows).
Proof.
  rewrite distinct_days_eq. unfold group_rows.
  apply PandasFacts.filter_drop_duplicates.
  - apply span_date_eqb_eq.
  - intros x y H. unfold span_date in H. congruence.
Qed.

(** A row of [result.csv] is the summary of a span that has a row in
    the joined frame. *)
Lemma in_VisitAggregator spans visits x :
  In x (VisitAggregator spans visits) <->
  exists c, In c (combined spans visits)
            /\ x = mkSummary (c_span c)
                     (sum_visit_count (combined spans visits) (c_span c))
                     (count_visit_days (distinct_days (combined spans visits))
                                       (c_span c)).
Proof.
  unfold VisitAggregator.
  rewrite (PandasFacts.in_drop_duplicates_rows _ summary_eqb_eq), in_map_iff.
  split.
  - intros (c & <- & Hc). exists c. split; auto.
    rewrite distinct_days_eq in Hc.
    eapply PandasFacts.drop_duplicates_incl, Hc.
  - intros (c & Hc & ->).
    destruct (PandasFacts.drop_duplicates_keys span_date_eqb span_date
                span_date_eqb_eq _ _ Hc) as (c' & Hc' & Hk).
    exists c'. rewrite distinct_days_eq. split; auto.
    unfold span_date in Hk. injection Hk as -> _. reflexivity.
Qed.

Lemma sum_Z_ge_length l :
  (forall z, In z l -> 1 <= z) -> Z.of_nat (List.length l) <= sum_Z l.
Proof.
  induction l as [|a l IH]; intros H; [reflexivity|].
  change (sum_Z (a :: l)) with (a + sum_Z l).
  change (List.length (a :: l)) with (S (List.length l)).
  specialize (H a (or_introl eq_refl)) as Ha.
  assert (Z.of_nat (List.length l) <= sum_Z l) by (apply IH; intros; apply H; right; auto).
  lia.
Qed.

End Combined.

(** ** Step 2: which visits count, and what is counted *)

Section Aggregates.

Import Pandas.

Lemma visits_in_span_outside k v l :
  (span_patient_id k = visit_patient_id v ->
   Calendar.leb (enrollment_start_date k) (date v)
   && Calendar.leb (date v) (enrollment_end_date k) = false) ->
  visits_in_span k (v :: l) = visits_in_span k l.
Proof.
  intros H. unfold visits_in_span. simpl.
  destruct (String.eqb (span_patient_id k) (visit_patient_id v)) eqn:E; auto.
  apply String.eqb_eq in E. rewrite (H E). reflexivity.
Qed.

Lemma combined_drop_outside spans l1 v l2 :
  (forall sp, In sp spans -> span_patient_id sp = visit_patient_id v ->
              Calendar.leb (enrollment_start_date sp) (date v)
              && Calendar.leb (date v) (enrollment_end_date sp) = false) ->
  combined spans (l1 ++ v :: l2) = combined spans (l1 ++ l2).
Proof.
  induction spans as [|sp spans IH]; intros H; [reflexivity|].
  rewrite !combined_cons, !visits_in_span_app.
  rewrite visits_in_span_outside by (apply H; left; reflexivity).
  rewrite IH by (intros; apply H; auto; right; assumption).
  reflexivity.
Qed.

Lemma Permutation_filter (A : Type) (f : A -> bool) (l1 l2 : list A) :
  Permutation l1 l2 -> Permutation (filter f l1) (filter f l2).
Proof.
  induction 1 as [|a l1 l2 _ IH|a b l|l1 l2 l3 _ IH1 _ IH2]; simpl.
  - constructor.
  - destruct (f a); auto.
  - destruct (f a), (f b); auto. apply perm_swap.
  - eapply Permutation_trans; eassumption.
Qed.

Lemma sum_Z_perm l1 l2 : Permutation l1 l2 -> sum_Z l1 = sum_Z l2.
Proof.
  unfold sum_Z.
  induction 1 as [|a l1 l2 _ IH|a b l|l1 l2 l3 _ IH1 _ IH2]; simpl; lia.
Qed.

Lemma combined_perm spans v1 v2 :
  Permutation v1 v2 -> Permutation (combined spans v1) (combined spans v2).
Proof.
  intros H. induction spans as [|sp spans IH]; [constructor|].
  rewrite !combined_cons. apply Permutation_app; auto.
  apply Permutation_map. unfold visits_in_span. apply Permutation_filter, H.
Qed.

Section DistinctKeys.
Variables A K : Type.
Variable key_eqb : K -> K -> bool.
Variable key : A -> K.
Hypothesis key_eqb_eq : forall a b, key_eqb a b = true <-> a = b.

(** The number of rows that [drop_duplicates] keeps depends on the
    keys that occur, not on the order of the rows. *)
Lemma drop_duplicates_length_keys (l1 l2 : list A) :
  (forall k, In k (map key l1) <-> In k (map key l2)) ->
  List.length (drop_duplicates key_eqb key l1)
  = List.length (drop_duplicates key_eqb key l2).
Proof.
  intros H.
  rewrite <- (length_map key (drop_duplicates key_eqb key l1)).
  rewrite <- (length_map key (drop_duplicates key_eqb key l2)).
  apply Permutation_length, NoDup_Permutation.
  - apply PandasFacts.drop_duplicates_NoDup, key_eqb_eq.
  - apply PandasFacts.drop_duplicates_NoDup, key_eqb_eq.
  - intros k.
    rewrite !(@PandasFacts.in_map_drop_duplicates _ _ key_eqb key key_eqb_eq).
    apply H.
Qed.
End DistinctKeys.

Lemma sum_visit_count_perm rows1 rows2 k :
  Permutation rows1 rows2 -> sum_visit_count rows1 k = sum_visit_count rows2 k.
Proof.
  intros H. unfold sum_visit_count, group_rows.
  apply sum_Z_perm, Permutation_map, Permutation_filter, H.
Qed.

Lemma count_visit_days_perm rows1 rows2 k :
  Permutation rows1 rows2 ->
  count_visit_days (distinct_days rows1) k = count_visit_days (distinct_days rows2) k.
Proof.
  intros H. unfold count_visit_days. rewrite !group_rows_distinct_days.
  f_equal.
  apply (@drop_duplicates_length_keys _ _ span_date_eqb span_date span_date_eqb_eq).
  intros kd. unfold group_rows.
  split; apply Permutation_in, Permutation_map, Permutation_filter;
    [|apply Permutation_sym]; exact H.
Qed.

(** The rows of [result.csv] do not depend on the order of the joined
    frame. *)
Lemma VisitAggregator_perm spans v1 v2 x :
  Permutation v1 v2 ->
  In x (VisitAggregator spans v1) -> In x (VisitAggregator spans v2).
Proof.
  intros H Hx. apply in_VisitAggregator in Hx. destruct Hx as (c & Hc & ->).
  pose proof (combined_perm spans H) as Hp.
  apply in_VisitAggregator. exists c. split.
  - eapply Permutation_in; eassumption.
  - rewrite (sum_visit_count_perm _ Hp), (count_visit_days_perm _ Hp).
    reflexivity.
Qed.

Lemma NoDup_map_pair (A B : Type) (a : A) (l : list B) :
  NoDup l -> NoDup (map (pair a) l).
Proof.
  induction 1 as [|b l Hnin Hnd IH]; simpl; constructor; auto.
  rewrite in_map_iff. intros (b' & E & Hb'). congruence.
Qed.

(** Collapsing the rows of a day leaves one row per distinct date. *)
Lemma count_distinct_days k vs :
  List.length
    (drop_duplicates span_date_eqb span_date
       (map (fun v => mkCombined k (date v) (outpatient_visit_count v)) vs))
  = List.length (nodup Timestamp_eq_dec (map date vs)).
Proof.
  rewrite <- (length_map span_date).
  rewrite <- (length_map (pair k) (nodup Timestamp_eq_dec (map date vs))).
  apply Permutation_length, NoDup_Permutation.
  - apply PandasFacts.drop_duplicates_NoDup, span_date_eqb_eq.
  - apply NoDup_map_pair, NoDup_nodup.
  - intros kd.
    rewrite (@PandasFacts.in_map_drop_duplicates _ _ span_date_eqb span_date
               span_date_eqb_eq).
    rewrite map_map. unfold span_date. simpl.
    rewrite !in_map_iff. split.
    + intros (v & <- & Hv). exists (date v). split; auto.
      apply nodup_In, in_map, Hv.
    + intros (dt & <- & Hd). apply nodup_In, in_map_iff in Hd.
      destruct Hd as (v & <- & Hv). exists v. auto.
Qed.

End Aggregates.

(** ** Reading the files *)

Section Reading.

Lemma dropna_map_Some (A : Type) (l : list A) : dropna (map Some l) = l.
Proof. induction l as [|a l IH]; simpl; congruence. Qed.

(** One element that raises makes the whole conversion raise. *)
Lemma mapM_raises (A B : Type) (f : A -> Outcome B) (l : list A) (x : A) :
  In x l -> f x = Raised ValueError -> mapM f l = Raised ValueError.
Proof.
  induction l as [|a l IH]; simpl; [tauto|].
  intros [->|H] Hx.
  - rewrite Hx. reflexivity.
  - destruct (f a) as [b|[]]; simpl; auto.
    rewrite (IH H Hx). reflexivity.
Qed.

Lemma read_enrollment_dropna csv :
  read_enrollment (map Some (dropna csv)) = read_enrollment csv.
Proof. unfold read_enrollment. rewrite dropna_map_Some. reflexivity. Qed.

Variable parse_Int64 : string -> option Z.

Lemma read_visits_dropna csv :
  bind (read_visits parse_Int64 (map Some (dropna csv)))
       (fun df => Returned (dropna df))
  = bind (read_visits parse_Int64 csv) (fun df => Returned (dropna df)).
Proof.
  unfold read_visits. induction csv as [|[[[p dt] c]|] csv IH]; simpl; auto.
  - destruct (parse_Int64 c); simpl; auto.
    destruct (mapM (typed_line parse_Int64) (map Some (dropna csv))) as [df1|e1];
      destruct (mapM (typed_line parse_Int64) csv) as [df2|e2];
      simpl in *; congruence.
  - destruct (mapM (typed_line parse_Int64) (map Some (dropna csv))) as [df1|e1];
      destruct (mapM (typed_line parse_Int64) csv) as [df2|e2];
      simpl in *; congruence.
Qed.

Lemma step2_dropna spans csv :
  step2 parse_Int64 spans (map Some (dropna csv)) = step2 parse_Int64 spans csv.
Proof.
  unfold step2. pose proof (read_visits_dropna csv) as H.
  destruct (read_visits parse_Int64 (map Some (dropna csv))) as [df1|[]];
    destruct (read_visits parse_Int64 csv) as [df2|[]];
    simpl in *; try congruence.
  injection H as ->. reflexivity.
Qed.

Lemma read_visits_typed csv df l :
  read_visits parse_Int64 csv = Returned df ->
  In l (dropna csv) ->
  exists n, parse_Int64 (snd l) = Some n /\ In (fst l, n) (dropna df).
Proof.
  unfold read_visits. revert df.
  induction csv as [|[[[p dt] c]|] csv IH]; simpl; intros df H Hl; [tauto| |].
  - destruct (parse_Int64 c) as [n|] eqn:E; simpl in H; [|discriminate].
    destruct (mapM (typed_line parse_Int64) csv) as [df'|] eqn:F;
      simpl in H; [|discriminate].
    injection H as <-. simpl. destruct Hl as [<-|Hl].
    + exists n. simpl. auto.
    + destruct (IH df' eq_refl Hl) as (m & Hm & Hin). exists m. auto.
  - destruct (mapM (typed_line parse_Int64) csv) as [df'|] eqn:F;
      simpl in H; [|discriminate].
    injection H as <-. simpl. apply IH; auto.
Qed.

End Reading.

(** ** Runs of a sorted frame of one year *)

Section ListSplits.

Variable A : Type.

Lemma in_two_split (l : list A) (x y : A) :
  In x l -> In y l ->
  x = y
  \/ (exists l1 m l2, l = l1 ++ x :: m ++ y :: l2)
  \/ (exists l1 m l2, l = l1 ++ y :: m ++ x :: l2).
Proof.
  intros Hx Hy. apply in_split in Hx. destruct Hx as (l1 & l2 & ->).
  apply in_app_iff in Hy. destruct Hy as [Hy|[Hy|Hy]]; auto.
  - apply in_split in Hy. destruct Hy as (l1a & l1b & ->).
    right. right. exists l1a, l1b, l2. rewrite <- app_assoc. reflexivity.
  - apply in_split in Hy. destruct Hy as (l2a & l2b & ->).
    right. left. exists l1, l2a, l2b. reflexivity.
Qed.

Lemma sorted_split (R : A -> A -> Prop) (l1 l2 : list A) (a : A) :
  StronglySorted R (l1 ++ a :: l2) -> Forall (R a) l2.
Proof.
  induction l1 as [|b l1 IH]; simpl; intros H; inversion H; subst; auto.
Qed.

Lemma NoDup_map_inj (B : Type) (f : A -> B) (l : list A) (x y : A) :
  NoDup (map f l) -> In x l -> In y l -> f x = f y -> x = y.
Proof.
  induction l as [|a l IH]; simpl; [tauto|].
  intros H. inversion H as [|? ? Hnin Hnd]; subst.
  intros [->|Hx] [->|Hy] E; auto.
  - exfalso. apply Hnin. rewrite E. apply in_map, Hy.
  - exfalso. apply Hnin. rewrite <- E. apply in_map, Hx.
Qed.

Lemma NoDup_map_split (B : Type) (f : A -> B) (l1 l2 : list A) (a b : A) :
  NoDup (map f (l1 ++ a :: l2)) -> In b l2 -> f a <> f b.
Proof.
  rewrite map_app. simpl. intros H Hb E.
  apply NoDup_remove_2 in H. apply H.
  apply in_app_iff. right. rewrite E. apply in_map, Hb.
Qed.

End ListSplits.

Section OneYear.

Variable df : list EnrollmentRecord.
Variable y : Z.

Hypothesis df_sorted : StronglySorted (fun a b => enrollment_leb a b = true) df.
Hypothesis df_year : forall r, In r df -> year (month_year r) = y.
Hypothesis df_months : NoDup (map patient_month df).
Hypothesis df_patients : no_cross_patient_step df = true.

Lemma labelled_split T1 x T2 :
  labelled df = T1 ++ x :: T2 -> df = map fst T1 ++ fst x :: map fst T2.
Proof.
  intros H. rewrite <- (map_fst_labelled df), H, map_app. reflexivity.
Qed.

(** Of two records of one patient, the later in the frame has the
    larger month number. *)
Lemma later_record_later_month l1 a l2 b :
  df = l1 ++ a :: l2 -> In b l2 -> patient_id a = patient_id b ->
  month_of a < month_of b.
Proof.
  intros E Hb Hp.
  assert (enrollment_leb a b = true) as Hle.
  { pose proof df_sorted as Hs. rewrite E in Hs. apply sorted_split in Hs.
    rewrite Forall_forall in Hs. apply Hs, Hb. }
  apply enrollment_leb_cases in Hle.
  destruct Hle as [Hlt|[_ Hle]].
  - exfalso. rewrite Hp in Hlt.
    rewrite (proj2 (patient_compare_eq _ _) eq_refl) in Hlt. discriminate.
  - assert (month_of a <= month_of b) as Hm.
    { apply CalendarFacts.leb_same_year_month; auto.
      rewrite !df_year; auto; rewrite E; apply in_app_iff; right;
        [right|left]; auto. }
    assert (patient_month a <> patient_month b) as Hne.
    { eapply NoDup_map_split; [|exact Hb]. rewrite <- E. exact df_months. }
    unfold patient_month in Hne.
    destruct (Z.eq_dec (month_of a) (month_of b)) as [Em|Em]; [|lia].
    exfalso. apply Hne. congruence.
Qed.

(** A record between two records of one patient is of that patient. *)
Lemma between_same_patient l1 a m b l2 z :
  df = l1 ++ a :: m ++ b :: l2 -> In z m -> patient_id a = patient_id b ->
  patient_id z = patient_id a.
Proof.
  intros E Hz Hp.
  assert (enrollment_leb a z = true) as Haz.
  { pose proof df_sorted as Hs. rewrite E in Hs. apply sorted_split in Hs.
    rewrite Forall_forall in Hs. apply Hs. apply in_app_iff. auto. }
  assert (enrollment_leb z b = true) as Hzb.
  { apply in_split in Hz. destruct Hz as (m1 & m2 & ->).
    pose proof df_sorted as Hs. rewrite E in Hs.
    replace (l1 ++ a :: (m1 ++ z :: m2) ++ b :: l2)
      with ((l1 ++ a :: m1) ++ z :: (m2 ++ b :: l2)) in Hs
      by (repeat rewrite <- app_assoc; simpl; repeat rewrite <- app_assoc;
          reflexivity).
    apply sorted_split in Hs. rewrite Forall_forall in Hs.
    apply Hs. apply in_app_iff. right. left. reflexivity. }
  apply enrollment_leb_cases in Haz, Hzb.
  destruct Haz as [Haz|[Haz _]]; auto.
  exfalso. destruct Hzb as [Hzb|[Hzb _]].
  - rewrite <- Hp in Hzb. exact (patient_lt_asym Haz Hzb).
  - rewrite Hzb, Hp in Haz. exact (patient_lt_irrefl Haz).
Qed.

Lemma cross_patient_step l1 a b l2 :
  df = l1 ++ a :: b :: l2 -> month_of b - month_of a = 1 ->
  patient_id a = patient_id b.
Proof.
  intros E Hm. pose proof df_patients as H. rewrite E in H. clear E.
  induction l1 as [|c l1 IH].
  - simpl in H. apply andb_true_iff in H. destruct H as [H _].
    apply orb_true_iff in H. destruct H as [H|H].
    + apply String.eqb_eq, H.
    + apply Z.eqb_eq in Hm. rewrite Hm in H. discriminate.
  - apply IH. simpl in H. destruct (l1 ++ a :: b :: l2); [reflexivity|].
    apply andb_true_iff in H. tauto.
Qed.

(** Two rows with one label: they are of one patient, and every month
    number from that of the first to that of the second is a month of
    that patient. *)
Lemma run_segment M : forall T1 a b g T2,
  labelled df = T1 ++ (a, g) :: M ++ (b, g) :: T2 ->
  patient_id a = patient_id b
  /\ month_of a < month_of b
  /\ (forall m, month_of a <= m <= month_of b ->
                exists r, In r df /\ patient_id r = patient_id a /\ month_of r = m).
Proof.
  induction M as [|[c g'] M IH]; intros T1 a b g T2 H.
  - simpl in H.
    pose proof (labelled_step _ _ _ _ _ H) as Hstep. simpl in Hstep.
    destruct (month_of b - month_of a =? 1) eqn:Hm; [|lia].
    apply Z.eqb_eq in Hm.
    pose proof (labelled_split _ _ _ H) as Hdf. simpl in Hdf.
    assert (patient_id a = patient_id b) as Hp
        by (eapply cross_patient_step; eauto).
    split; [exact Hp|]. split; [lia|].
    intros m Hm'. destruct (Z.eq_dec m (month_of a)) as [->|Hne].
    + exists a. repeat split; auto. rewrite Hdf. apply in_app_iff. right. left. auto.
    + exists b. repeat split; auto; [|lia].
      rewrite Hdf. apply in_app_iff. right. right. left. auto.
  - simpl in H.
    assert (g' = g) as ->.
    { pose proof (@labelled_mono df T1 (a, g) _ (c, g') H (or_introl eq_refl)) as H1.
      assert (labelled df = (T1 ++ [(a, g)]) ++ (c, g') :: M ++ (b, g) :: T2) as H'
          by (rewrite <- app_assoc; exact H).
      assert (In (b, g) (M ++ (b, g) :: T2)) as Hb
          by (apply in_app_iff; right; left; reflexivity).
      pose proof (@labelled_mono df _ (c, g') _ (b, g) H' Hb) as H2.
      simpl in *. lia. }
    pose proof (labelled_step _ _ _ _ _ H) as Hstep. simpl in Hstep.
    destruct (month_of c - month_of a =? 1) eqn:Hm; [|lia].
    apply Z.eqb_eq in Hm.
    pose proof (labelled_split _ _ _ H) as Hdf. simpl in Hdf.
    assert (patient_id a = patient_id c) as Hp
        by (eapply cross_patient_step; eauto).
    assert (labelled df = (T1 ++ [(a, g)]) ++ (c, g) :: M ++ (b, g) :: T2) as H'
        by (rewrite <- app_assoc; exact H).
    destruct (IH _ _ _ _ _ H') as (Hp' & Hlt & Hcov).
    split; [congruence|]. split; [lia|].
    intros m Hm'. destruct (Z.eq_dec m (month_of a)) as [->|Hne].
    + exists a. repeat split; auto. rewrite Hdf. apply in_app_iff. right. left. auto.
    + destruct (Hcov m) as (r & Hr & Hrp & Hrm); [lia|].
      exists r. repeat split; auto. congruence.
Qed.

Lemma same_run_same_patient a b g :
  In (a, g) (labelled df) -> In (b, g) (labelled df) ->
  patient_id a = patient_id b.
Proof.
  intros Ha Hb.
  destruct (in_two_split _ _ _ Ha Hb) as [E|[(T1 & M & T2 & H)|(T1 & M & T2 & H)]].
  - congruence.
  - apply (run_segment _ _ _ _ _ _ H).
  - symmetry. apply (run_segment _ _ _ _ _ _ H).
Qed.

Lemma enrolled_in_frame r : In r df -> enrolled df (patient_id r) (month_of r).
Proof. intros H. exists r. auto. Qed.

Ltac split_side :=
  auto; try congruence; try (left; reflexivity);
  try (apply in_app_iff; right; left; reflexivity);
  try (rewrite <- app_assoc; assumption).

(** The run between its earliest record [rs] and its latest record [re]
    is a maximal run of months of the patient. *)
Lemma run_is_maximal g rs re :
  In (rs, g) (labelled df) -> In (re, g) (labelled df) ->
  (forall r', In (r', g) (labelled df) ->
              Calendar.leb (month_year rs) (month_year r') = true
              /\ Calendar.leb (month_year r') (month_year re) = true) ->
  month_of rs <= month_of re
  /\ (forall m, month_of rs <= m <= month_of re -> enrolled df (patient_id rs) m)
  /\ ~ enrolled df (patient_id rs) (month_of rs - 1)
  /\ ~ enrolled df (patient_id rs) (month_of re + 1).
Proof.
  intros Hrs Hre Hext.
  pose proof (in_labelled_record _ _ Hrs) as Hrs_df. simpl in Hrs_df.
  pose proof (in_labelled_record _ _ Hre) as Hre_df. simpl in Hre_df.
  assert (forall a b, In a df -> In b df ->
                      Calendar.leb (month_year a) (month_year b) = true ->
                      month_of a <= month_of b) as Hmon.
  { intros a b Ha Hb. apply CalendarFacts.leb_same_year_month.
    rewrite !df_year; auto. }
  assert (month_of rs <= month_of re) as Hle
      by (apply Hmon; auto; apply (Hext re Hre)).
  assert (patient_id rs = patient_id re) as Hpe
      by (eapply same_run_same_patient; eauto).
  split; [exact Hle|]. split; [|split].
  - intros m Hm.
    destruct (in_two_split _ _ _ Hrs Hre)
      as [E|[(T1 & M & T2 & H)|(T1 & M & T2 & H)]].
    + injection E as E. subst re. assert (m = month_of rs) as -> by lia.
      apply enrolled_in_frame, Hrs_df.
    + destruct (run_segment _ _ _ _ _ _ H) as (_ & _ & Hcov).
      destruct (Hcov m Hm) as (r & Hr & Hp & Hrm). exists r. auto.
    + destruct (run_segment _ _ _ _ _ _ H) as (_ & Hlt & _). lia.
  - intros (r' & Hr' & Hp' & Hm').
    destruct (in_record_labelled _ _ Hr') as (g' & Hg').
    destruct (in_two_split _ _ _ Hg' Hrs)
      as [E|[(T1 & M & T2 & H)|(T1 & M & T2 & H)]].
    + injection E as E _. subst r'. lia.
    + pose proof (labelled_split _ _ _ H) as Hdf. simpl in Hdf.
      rewrite map_app in Hdf. simpl in Hdf.
      destruct M as [|[z gz] M].
      * simpl in H. pose proof (labelled_step _ _ _ _ _ H) as Hstep.
        simpl in Hstep.
        replace (month_of rs - month_of r' =? 1) with true in Hstep
          by (symmetry; apply Z.eqb_eq; lia).
        subst g'.
        assert (In (r', g) (labelled df)) as Hin
            by (rewrite H; apply in_app_iff; right; left; reflexivity).
        pose proof (Hmon _ _ Hrs_df Hr' (proj1 (Hext r' Hin))). lia.
      * simpl in Hdf.
        assert (patient_id z = patient_id r') as Hz.
        { eapply (@between_same_patient (map fst T1) r' (z :: map fst M) rs
                    (map fst T2) z); split_side. }
        assert (month_of r' < month_of z) as H1.
        { eapply (@later_record_later_month (map fst T1) r'
                    (z :: map fst M ++ rs :: map fst T2) z); split_side. }
        assert (month_of z < month_of rs) as H2.
        { eapply (@later_record_later_month (map fst T1 ++ [r']) z
                    (map fst M ++ rs :: map fst T2) rs); split_side. }
        lia.
    + pose proof (labelled_split _ _ _ H) as Hdf. simpl in Hdf.
      rewrite map_app in Hdf. simpl in Hdf.
      assert (month_of rs < month_of r') as H1.
      { eapply (@later_record_later_month (map fst T1) rs
                  (map fst M ++ r' :: map fst T2) r'); split_side. }
      lia.
  - intros (r' & Hr' & Hp' & Hm').
    destruct (in_record_labelled _ _ Hr') as (g' & Hg').
    destruct (in_two_split _ _ _ Hre Hg')
      as [E|[(T1 & M & T2 & H)|(T1 & M & T2 & H)]].
    + injection E as E _. subst r'. lia.
    + pose proof (labelled_split _ _ _ H) as Hdf. simpl in Hdf.
      rewrite map_app in Hdf. simpl in Hdf.
      destruct M as [|[z gz] M].
      * simpl in H. pose proof (labelled_step _ _ _ _ _ H) as Hstep.
        simpl in Hstep.
        replace (month_of r' - month_of re =? 1) with true in Hstep
          by (symmetry; apply Z.eqb_eq; lia).
        subst g'.
        assert (In (r', g) (labelled df)) as Hin
            by (rewrite H; apply in_app_iff; right; right; left; reflexivity).
        pose proof (Hmon _ _ Hr' Hre_df (proj2 (Hext r' Hin))). lia.
      * simpl in Hdf.
        assert (patient_id z = patient_id re) as Hz.
        { eapply (@between_same_patient (map fst T1) re (z :: map fst M) r'
                    (map fst T2) z); split_side. }
        assert (month_of re < month_of z) as H1.
        { eapply (@later_record_later_month (map fst T1) re
                    (z :: map fst M ++ r' :: map fst T2) z); split_side. }
        assert (month_of z < month_of r') as H2.
        { eapply (@later_record_later_month (map fst T1 ++ [re]) z
                    (map fst M ++ r' :: map fst T2) r'); split_side. }
        lia.
    + pose proof (labelled_split _ _ _ H) as Hdf. simpl in Hdf.
      rewrite map_app in Hdf. simpl in Hdf.
      assert (month_of r' < month_of re) as H1.
      { eapply (@later_record_later_month (map fst T1) r'
                  (map fst M ++ re :: map fst T2) re); split_side. }
      lia.
Qed.

End OneYear.

Section MaximalRuns.

Variable rows : list EnrollmentRecord.
Variable y : Z.

Hypothesis rows_year : forall r, In r rows -> year (month_year r) = y.
Hypothesis rows_months : NoDup (map patient_month rows).
Hypothesis rows_patients : no_cross_patient_step (sort_values rows) = true.

Lemma enrolled_sort_values p m :
  enrolled (sort_values rows) p m <-> enrolled rows p m.
Proof.
  unfold enrolled. split; intros (r & Hr & H); exists r; split; auto;
    apply in_sort_values; exact Hr.
Qed.

Lemma sorted_months : NoDup (map patient_month (sort_values rows)).
Proof.
  eapply Permutation_NoDup; [|exact rows_months].
  apply Permutation_map, sort_values_perm.
Qed.

Lemma sorted_year r : In r (sort_values rows) -> year (month_year r) = y.
Proof. intros H. apply rows_year, in_sort_values, H. Qed.

(** An emitted span starts on the date of a record [rs] of its patient
    and ends in the month of a record [re] of its patient, and the
    months from [rs] to [re] are a maximal run of months of the
    patient. *)
Lemma span_run_records sp :
  In sp (SpanBuilder rows) ->
  exists rs re,
    In rs rows /\ In re rows
    /\ patient_id rs = span_patient_id sp
    /\ patient_id re = span_patient_id sp
    /\ enrollment_start_date sp = month_year rs
    /\ enrollment_end_date sp = MonthEnd0 (month_year re)
    /\ month_of rs <= month_of re
    /\ (forall m, month_of rs <= m <= month_of re ->
                  enrolled rows (span_patient_id sp) m)
    /\ ~ enrolled rows (span_patient_id sp) (month_of rs - 1)
    /\ ~ enrolled rows (span_patient_id sp) (month_of re + 1).
Proof.
  intros H. apply in_SpanBuilder_run in H.
  destruct H as (r & g & rs & re & Hr & Hrs & Hre & Hext & _ & ->).
  apply in_run_of in Hrs, Hre.
  assert (forall r', In (r', g) (labelled (sort_values rows)) ->
                     Calendar.leb (month_year rs) (month_year r') = true
                     /\ Calendar.leb (month_year r') (month_year re) = true)
    as Hext' by (intros r' Hr'; apply Hext, in_run_of, Hr').
  destruct (@run_is_maximal (sort_values rows) y (sort_values_sorted rows)
              sorted_year sorted_months rows_patients g rs re Hrs Hre Hext')
    as (Hle & Hcov & Hlo & Hhi).
  pose proof (@same_run_same_patient (sort_values rows) rows_patients
                rs r g Hrs Hr) as Hp1.
  pose proof (@same_run_same_patient (sort_values rows) rows_patients
                re r g Hre Hr) as Hp2.
  exists rs, re. simpl. rewrite <- Hp1.
  repeat split; auto.
  - apply in_sort_values. apply (in_labelled_record _ _ Hrs).
  - apply in_sort_values. apply (in_labelled_record _ _ Hre).
  - congruence.
  - intros m Hm. apply enrolled_sort_values, Hcov, Hm.
  - rewrite <- enrolled_sort_values. exact Hlo.
  - rewrite <- enrolled_sort_values. exact Hhi.
Qed.

Lemma NoDup_map_on (A B : Type) (f : A -> B) (l : list A) :
  NoDup l ->
  (forall a b, In a l -> In b l -> f a = f b -> a = b) ->
  NoDup (map f l).
Proof.
  induction 1 as [|a l Hnin Hnd IH]; intros Hinj; simpl; constructor.
  - rewrite in_map_iff. intros (b & E & Hb).
    assert (b = a) by (apply Hinj; simpl; auto). subst. contradiction.
  - apply IH. intros; apply Hinj; simpl; auto.
Qed.

(** The span table that step 1 writes holds every span once. *)
Lemma SpanBuilder_NoDup : NoDup (SpanBuilder rows).
Proof.
  unfold SpanBuilder. apply NoDup_map_on.
  - rewrite <- (map_id (Pandas.drop_duplicates _ _ _)).
    apply (@PandasFacts.drop_duplicates_NoDup _ _ span_eqb (fun sp => sp)).
    apply span_eqb_eq.
  - intros a b Ha Hb E.
    apply PandasFacts.drop_duplicates_incl, in_boundary_spans in Ha, Hb.
    destruct Ha as (r & g & rs & re & Hr & _ & Hre & _ & _ & ->).
    destruct Hb as (r' & g' & rs' & re' & Hr' & _ & Hre' & _ & _ & ->).
    unfold fix_end_date, MonthEnd0 in E. simpl in E.
    injection E as Ep Es Ey Em _.
    apply in_run_of in Hre, Hre'.
    pose proof (@same_run_same_patient (sort_values rows) rows_patients
                  re r g Hre Hr) as Hp.
    pose proof (@same_run_same_patient (sort_values rows) rows_patients
                  re' r' g' Hre' Hr') as Hp'.
    assert (re = re') as <-.
    { apply (@NoDup_map_inj _ _ patient_month (sort_values rows)).
      - apply sorted_months.
      - apply (in_labelled_record _ _ Hre).
      - apply (in_labelled_record _ _ Hre').
      - unfold patient_month, month_of. congruence. }
    congruence.
Qed.

End MaximalRuns.

(** * The claims *)

(** ** Step 2 *)







(** ** Step 1 *)

(** C1: the records of different patients are not kept apart.  With
    January and February 2023 for patient "A" and March 2023 for patient
    "B", the three records carry consecutive month numbers in the sorted
    frame and form one run: "A" and "B" both receive the span from
    2023-01-01 to 2023-03-31, where the comment above lines 85-118 (one
    group per patient and run of contiguous months) asks for 01-01 to
    02-28 for "A" and 03-01 to 03-31 for "B". *)
Theorem SpanBuilder_joins_patients :
  SpanBuilder [mkEnrollment "A" (mkTimestamp 2023 1 1);
               mkEnrollment "A" (mkTimestamp 2023 2 1);
               mkEnrollment "B" (mkTimestamp 2023 3 1)]
  = [mkSpan "A" (mkTimestamp 2023 1 1) (mkTimestamp 2023 3 31);
     mkSpan "B" (mkTimestamp 2023 1 1) (mkTimestamp 2023 3 31)].
Proof. vm_compute. reflexivity. Qed.

(** The example of the specification, for one patient: the months
    1, 2, 3 and 5 give the two spans 1-3 and 5. *)
Example SpanBuilder_months_1_2_3_5 :
  SpanBuilder [mkEnrollment "P" (mkTimestamp 2023 5 1);
               mkEnrollment "P" (mkTimestamp 2023 1 1);
               mkEnrollment "P" (mkTimestamp 2023 3 1);
               mkEnrollment "P" (mkTimestamp 2023 2 1)]
  = [mkSpan "P" (mkTimestamp 2023 1 1) (mkTimestamp 2023 3 31);
     mkSpan "P" (mkTimestamp 2023 5 1) (mkTimestamp 2023 5 31)].
Proof. vm_compute. reflexivity. Qed.

(** C7: when the enrollment records are of more than one calendar year,
    the check printed on line 93 is [False]; the run goes on and writes
    the spans of [SpanBuilder]. *)
Theorem multi_year_prints_False
    (csv : list EnrollmentLine) (rows : list EnrollmentRecord)
    (r1 r2 : EnrollmentRecord) :
  read_enrollment csv = Returned rows ->
  In r1 rows -> In r2 rows ->
  year (month_year r1) <> year (month_year r2) ->
  step1 csv
  = Returned (mkStep1 false (List.length (SpanBuilder rows)) (SpanBuilder rows)).
Proof.
  intros Hread H1 H2 Hy. unfold step1. rewrite Hread. simpl.
  replace (single_year_check rows) with false; [reflexivity|].
  symmetry. unfold single_year_check.
  destruct (forallb _ rows) eqn:E; [|reflexivity].
  rewrite forallb_forall in E.
  pose proof (E r1 H1) as E1. pose proof (E r2 H2) as E2.
  apply Z.eqb_eq in E1, E2. congruence.
Qed.

Lemma multi_year_example :
  step1 [Some ("P", "3/1/22")%string; Some ("P", "4/1/24")%string]
  = Returned
      (mkStep1 false
         (List.length
            (SpanBuilder [mkEnrollment "P" (mkTimestamp 2022 3 1);
                          mkEnrollment "P" (mkTimestamp 2024 4 1)]))
         (SpanBuilder [mkEnrollment "P" (mkTimestamp 2022 3 1);
                       mkEnrollment "P" (mkTimestamp 2024 4 1)])).
Proof.
  apply (@multi_year_prints_False _ _
           (mkEnrollment "P" (mkTimestamp 2022 3 1))
           (mkEnrollment "P" (mkTimestamp 2024 4 1))).
  - reflexivity.
  - simpl. auto.
  - simpl. auto.
  - simpl. lia.
Defined.



Example SpanBuilder_march_2022_april_2024 :
  SpanBuilder [mkEnrollment "P" (mkTimestamp 2024 4 1);
               mkEnrollment "P" (mkTimestamp 2022 3 1)]
  = [mkSpan "P" (mkTimestamp 2022 3 1) (mkTimestamp 2024 4 30)].
Proof. vm_compute. reflexivity. Qed.






(** C2, as stated, fails on duplicate rows: with January 2023 twice and
    February 2023 once for one patient, the second January row has a
    month difference of 0 and opens a new run; the patient receives the
    spans 01-01 to 01-31 and 01-01 to 02-28, which overlap. *)
Lemma duplicate_rows_overlap :
  let out := SpanBuilder [mkEnrollment "P" (mkTimestamp 2023 1 1);
                          mkEnrollment "P" (mkTimestamp 2023 1 1);
                          mkEnrollment "P" (mkTimestamp 2023 2 1)] in
  exists a b,
    In a out /\ In b out /\ a <> b
    /\ span_patient_id a = span_patient_id b
    /\ spans_overlap a b = true.
Proof.
  exists (mkSpan "P" (mkTimestamp 2023 1 1) (mkTimestamp 2023 1 31)),
         (mkSpan "P" (mkTimestamp 2023 1 1) (mkTimestamp 2023 2 28)).
  vm_compute. repeat split; auto. discriminate.
Qed.

(** C2, amended: for records of one year, with at most one record per
    patient and month number, and with no record followed in the sorted
    frame by a record of another patient with the next month number,
    every emitted span covers a maximal run of consecutive enrolled
    months of its patient, and two different spans of one patient do not
    overlap. *)
Theorem spans_disjoint_maximal_runs
    (rows : list EnrollmentRecord) (y : Z) (sp : EnrollmentSpan) :
  (forall r, In r rows -> year (month_year r) = y) ->
  NoDup (map patient_month rows) ->
  no_cross_patient_step (sort_values rows) = true ->
  In sp (SpanBuilder rows) ->
  maximal_run rows sp
  /\ year (enrollment_start_date sp) = y
  /\ year (enrollment_end_date sp) = y
  /\ forall sp', In sp' (SpanBuilder rows) ->
                 span_patient_id sp' = span_patient_id sp ->
                 sp' <> sp ->
                 spans_overlap sp sp' = false.
Proof.
  intros Hy Hnd Hx Hsp.
  destruct (@span_run_records rows y Hy Hnd Hx sp Hsp)
    as (rs & re & Hrs & Hre & Hps & Hpe & Es & Ee & Hle & Hcov & Hlo & Hhi).
  assert (month (enrollment_start_date sp) = month_of rs) as Ms
      by (rewrite Es; reflexivity).
  assert (month (enrollment_end_date sp) = month_of re) as Me
      by (rewrite Ee; reflexivity).
  split; [|split; [|split]].
  - unfold maximal_run. rewrite Ms, Me. auto.
  - rewrite Es. auto.
  - rewrite Ee. simpl. auto.
  - intros sp' Hsp' Hp Hne.
    destruct (@span_run_records rows y Hy Hnd Hx sp' Hsp')
      as (rs' & re' & Hrs' & Hre' & Hps' & Hpe' & Es' & Ee'
          & Hle' & Hcov' & Hlo' & Hhi').
    rewrite Hp in *.
    unfold spans_overlap.
    destruct (Z_lt_dec (month_of re') (month_of rs)) as [H1|H1].
    { assert (Calendar.ltb (enrollment_end_date sp') (enrollment_start_date sp)
              = true) as Hlt.
      { apply CalendarFacts.month_lt_ltb.
        - rewrite Es, Ee'. simpl. rewrite (Hy rs), (Hy re'); auto.
        - rewrite Es, Ee'. exact H1. }
      rewrite (CalendarFacts.ltb_not_leb _ _ Hlt). reflexivity. }
    destruct (Z_lt_dec (month_of re) (month_of rs')) as [H2|H2].
    { assert (Calendar.ltb (enrollment_end_date sp) (enrollment_start_date sp')
              = true) as Hlt.
      { apply CalendarFacts.month_lt_ltb.
        - rewrite Es', Ee. simpl. rewrite (Hy rs'), (Hy re); auto.
        - rewrite Es', Ee. exact H2. }
      rewrite (CalendarFacts.ltb_not_leb _ _ Hlt). apply andb_false_r. }
    exfalso. apply Hne.
    assert (month_of rs' = month_of rs) as Ea.
    { destruct (Z_lt_dec (month_of rs) (month_of rs')) as [L|L].
      - exfalso. apply Hlo'. apply Hcov. lia.
      - destruct (Z_lt_dec (month_of rs') (month_of rs)) as [L'|L']; [|lia].
        exfalso. apply Hlo. apply Hcov'. lia. }
    assert (month_of re' = month_of re) as Eb.
    { destruct (Z_lt_dec (month_of re) (month_of re')) as [L|L].
      - exfalso. apply Hhi. apply Hcov'. lia.
      - destruct (Z_lt_dec (month_of re') (month_of re)) as [L'|L']; [|lia].
        exfalso. apply Hhi'. apply Hcov. lia. }
    assert (rs' = rs) as ->.
    { apply (@NoDup_map_inj _ _ patient_month rows); auto.
      unfold patient_month. congruence. }
    assert (re' = re) as ->.
    { apply (@NoDup_map_inj _ _ patient_month rows); auto.
      unfold patient_month. congruence. }
    destruct sp, sp'. simpl in *. congruence.
Qed.

Lemma spans_disjoint_example :
  let rows := [mkEnrollment "B" (mkTimestamp 2023 6 1);
               mkEnrollment "A" (mkTimestamp 2023 2 1);
               mkEnrollment "A" (mkTimestamp 2023 1 1);
               mkEnrollment "A" (mkTimestamp 2023 4 1)] in
  let sp := mkSpan "A" (mkTimestamp 2023 1 1) (mkTimestamp 2023 2 28) in
  maximal_run rows sp
  /\ year (enrollment_start_date sp) = 2023
  /\ year (enrollment_end_date sp) = 2023
  /\ forall sp', In sp' (SpanBuilder rows) ->
                 span_patient_id sp' = span_patient_id sp ->
                 sp' <> sp ->
                 spans_overlap sp sp' = false.
Proof.
  intros rows sp.
  apply (@spans_disjoint_maximal_runs rows 2023 sp).
  - intros r [<-|[<-|[<-|[<-|[]]]]]; reflexivity.
  - repeat (constructor;
            [simpl; intros H;
             repeat (destruct H as [H|H]; [discriminate H|]); exact H|]).
    constructor.
  - reflexivity.
  - vm_compute. left. reflexivity.
Defined.




(** The lengths of the months in [MonthEnd0]. *)
Example month_lengths :
  MonthEnd0 (mkTimestamp 2024 2 1) = mkTimestamp 2024 2 29
  /\ MonthEnd0 (mkTimestamp 2023 2 1) = mkTimestamp 2023 2 28
  /\ MonthEnd0 (mkTimestamp 1900 2 1) = mkTimestamp 1900 2 28
  /\ MonthEnd0 (mkTimestamp 2000 2 1) = mkTimestamp 2000 2 29
  /\ MonthEnd0 (mkTimestamp 2023 4 1) = mkTimestamp 2023 4 30
  /\ MonthEnd0 (mkTimestamp 2023 12 1) = mkTimestamp 2023 12 31
  /\ MonthEnd0 (mkTimestamp 2023 4 30) = mkTimestamp 2023 4 30.
Proof. repeat split. Qed.

(** ** The script on the lines of the two files *)

(** The scenario of the specification: patient "P1" enrolled in months
    1, 2 and 3 of 2023, visits on 1/5 (twice) and 2/10 with counts 1, 1
    and 2. *)
Example end_to_end_scenario :
  match main decimal_Int64
          [Some ("P1", "1/1/23")%string; Some ("P1", "2/1/23")%string;
           Some ("P1", "3/1/23")%string]
          [Some ("P1", "1/5/23", "1")%string; Some ("P1", "1/5/23", "1")%string;
           Some ("P1", "2/10/23", "2")%string]
  with
  | Returned (o1, o2) =>
      printed_single_year o1 = true
      /\ patient_enrollment_span o1
         = [mkSpan "P1" (mkTimestamp 2023 1 1) (mkTimestamp 2023 3 31)]
      /\ result o2
         = [mkSummary (mkSpan "P1" (mkTimestamp 2023 1 1) (mkTimestamp 2023 3 31))
                      4 2]
  | Raised _ => False
  end.
Proof. vm_compute. repeat split. Qed.

(** A record dated in the middle of its month, read from the file. *)
Example step1_mid_month_record :
  step1 [Some ("P", "1/15/23")%string]
  = Returned (mkStep1 true 1
                [mkSpan "P" (mkTimestamp 2023 1 15) (mkTimestamp 2023 1 31)]).
Proof. vm_compute. reflexivity. Qed.

(** * Further properties of the script *)

(** ** The span table *)

Section SpanTable.

(** The earliest and the latest record of the run of a row, and the row
    of the span table that the run gives before line 122. *)
Lemma run_span_emitted df r g :
  In (r, g) (labelled df) ->
  exists rs re,
    In (rs, g) (labelled df) /\ In (re, g) (labelled df)
    /\ (forall r', In (r', g) (labelled df) ->
                   Calendar.leb (month_year rs) (month_year r') = true
                   /\ Calendar.leb (month_year r') (month_year re) = true)
    /\ In (mkSpan (patient_id rs) (month_year rs) (month_year re))
          (map to_span (boundary_rows df)).
Proof.
  intros Hr.
  assert (map month_year (run_of df g) <> []) as Hne.
  { assert (In r (run_of df g)) as H by (apply in_run_of, Hr).
    intros E. apply (in_map month_year) in H. rewrite E in H. exact H. }
  destruct (Pandas.aggregate Calendar.min (month_year r)
              (map month_year (run_of df g))) as [ys ms ds] eqn:Emin.
  destruct (aggregate_min_spec (month_year r) Hne) as [Hs1 Hs2].
  destruct (aggregate_max_spec (month_year r) Hne) as [He1 He2].
  apply in_map_iff in Hs1. destruct Hs1 as (rs & Ers & Hrs).
  apply in_map_iff in He1. destruct He1 as (re & Ere & Hre).
  exists rs, re. apply in_run_of in Hrs, Hre.
  split; [exact Hrs|]. split; [exact Hre|]. split.
  - intros r' Hr'. apply in_run_of in Hr'. split.
    + rewrite Ers. apply Hs2, in_map, Hr'.
    + rewrite Ere. apply He2, in_map, Hr'.
  - apply in_map_iff.
    exists (rs, (g, (month_year rs, month_year re))). split; [reflexivity|].
    unfold boundary_rows. apply filter_In. split.
    + rewrite frame_labelled. apply in_map_iff. exists (rs, g).
      split; [|exact Hrs]. simpl.
      rewrite (aggregate_dflt Calendar.min (month_year rs) (month_year r) Hne).
      rewrite (aggregate_dflt Calendar.max (month_year rs) (month_year r) Hne).
      rewrite <- Ers, <- Ere. reflexivity.
    + unfold frame_start, frame_record. simpl.
      rewrite CalendarFacts.eqb_refl. reflexivity.
Qed.

Lemma in_SpanBuilder_fixed rows sp :
  In sp (map to_span (boundary_rows (sort_values rows))) ->
  In (fix_end_date sp) (SpanBuilder rows).
Proof.
  intros H. unfold SpanBuilder. apply in_map.
  apply (PandasFacts.in_drop_duplicates_rows _ span_eqb_eq). exact H.
Qed.

Lemma MonthEnd0_after (t : Timestamp) :
  valid_date t -> Calendar.leb t (MonthEnd0 t) = true.
Proof.
  intros [_ [_ Hd]]. destruct t as [y m dd]. simpl in *.
  unfold Calendar.leb, Calendar.compare, MonthEnd0. simpl.
  rewrite !Z.compare_refl.
  destruct (Z.compare_spec dd (days_in_month y m)); auto. lia.
Qed.

Lemma days_in_month_ge_28 (y m : Z) : 28 <= days_in_month y m.
Proof.
  unfold days_in_month.
  destruct (m =? 2); [destruct (is_leap_year y); lia|].
  destruct ((m =? 4) || (m =? 6) || (m =? 9) || (m =? 11)); lia.
Qed.

Lemma MonthEnd0_valid (t : Timestamp) : valid_date t -> valid_date (MonthEnd0 t).
Proof.
  intros [Hm _]. split; simpl; auto.
  pose proof (days_in_month_ge_28 (year t) (month t)). lia.
Qed.

End SpanTable.

(** X1: every row of the span table comes from a record of the input
    that opens or closes its run: it carries the patient of that record,
    and the date of the record is its start, or the month of the record
    is the month its end closes.  No span is written for a patient
    without a record. *)
Theorem span_from_boundary_record
    (rows : list EnrollmentRecord) (sp : EnrollmentSpan) :
  In sp (SpanBuilder rows) ->
  exists r, In r rows
            /\ patient_id r = span_patient_id sp
            /\ (enrollment_start_date sp = month_year r
                \/ enrollment_end_date sp = MonthEnd0 (month_year r)).
Proof.
  intros H. apply in_SpanBuilder_run in H.
  destruct H as (r & g & rs & re & Hr & _ & _ & _ & Hb & ->).
  exists r. simpl. split; [|split; [reflexivity|]].
  - apply in_sort_values. apply (in_labelled_record _ _ Hr).
  - destruct Hb as [<-|<-]; auto.
Qed.

Lemma span_from_boundary_record_example :
  let rows := [mkEnrollment "A" (mkTimestamp 2023 1 1);
               mkEnrollment "A" (mkTimestamp 2023 2 1);
               mkEnrollment "B" (mkTimestamp 2023 3 1)] in
  let sp := mkSpan "B" (mkTimestamp 2023 1 1) (mkTimestamp 2023 3 31) in
  exists r, In r rows
            /\ patient_id r = span_patient_id sp
            /\ (enrollment_start_date sp = month_year r
                \/ enrollment_end_date sp = MonthEnd0 (month_year r)).
Proof.
  intros rows sp.
  apply (@span_from_boundary_record rows sp).
  vm_compute. right. left. reflexivity.
Defined.

(** X2: under the assumptions of the script (records of one year, one
    record per patient and month, no record followed in the sorted frame
    by a record of another patient with the next month number), every
    record lies in a span of its own patient: no enrolled month is lost. *)
Theorem every_record_in_a_span
    (rows : list EnrollmentRecord) (y : Z) (r : EnrollmentRecord) :
  (forall r', In r' rows -> year (month_year r') = y) ->
  NoDup (map patient_month rows) ->
  no_cross_patient_step (sort_values rows) = true ->
  In r rows ->
  exists sp, In sp (SpanBuilder rows)
             /\ span_patient_id sp = patient_id r
             /\ month (enrollment_start_date sp) <= month_of r
                <= month (enrollment_end_date sp).
Proof.
  intros Hy Hnd Hx Hr.
  apply in_sort_values in Hr.
  destruct (in_record_labelled _ _ Hr) as (g & Hg).
  destruct (run_span_emitted _ _ _ Hg) as (rs & re & Hrs & Hre & Hext & Hin).
  exists (fix_end_date (mkSpan (patient_id rs) (month_year rs) (month_year re))).
  split; [apply in_SpanBuilder_fixed, Hin|]. simpl. split.
  - apply (@same_run_same_patient (sort_values rows) Hx rs r g Hrs Hg).
  - assert (forall a, In (a, g) (labelled (sort_values rows)) ->
                      year (month_year a) = y) as Hya.
    { intros a Ha. apply Hy, in_sort_values. apply (in_labelled_record _ _ Ha). }
    destruct (Hext r Hg) as [H1 H2].
    apply CalendarFacts.leb_same_year_month in H1, H2;
      try (rewrite !Hya; auto).
    unfold month_of. lia.
Qed.

Lemma every_record_in_a_span_example :
  let rows := [mkEnrollment "B" (mkTimestamp 2023 6 1);
               mkEnrollment "A" (mkTimestamp 2023 2 1);
               mkEnrollment "A" (mkTimestamp 2023 1 1);
               mkEnrollment "A" (mkTimestamp 2023 4 1)] in
  let r := mkEnrollment "A" (mkTimestamp 2023 2 1) in
  exists sp, In sp (SpanBuilder rows)
             /\ span_patient_id sp = patient_id r
             /\ month (enrollment_start_date sp) <= month_of r
                <= month (enrollment_end_date sp).
Proof.
  intros rows r.
  apply (@every_record_in_a_span rows 2023 r).
  - intros r' [<-|[<-|[<-|[<-|[]]]]]; reflexivity.
  - repeat (constructor;
            [simpl; intros H;
             repeat (destruct H as [H|H]; [discriminate H|]); exact H|]).
    constructor.
  - reflexivity.
  - simpl. auto.
Defined.

(** X3: with one record per patient and month number, and no record
    followed in the sorted frame by a record of another patient with the
    next month number, the span table holds no row twice, although
    line 118 drops the duplicates before line 122 moves the end dates. *)
Theorem span_table_no_duplicates (rows : list EnrollmentRecord) :
  NoDup (map patient_month rows) ->
  no_cross_patient_step (sort_values rows) = true ->
  NoDup (SpanBuilder rows).
Proof. intros Hnd Hx. exact (@SpanBuilder_NoDup rows Hnd Hx). Qed.

Lemma span_table_no_duplicates_example :
  NoDup (SpanBuilder [mkEnrollment "B" (mkTimestamp 2023 6 1);
                      mkEnrollment "A" (mkTimestamp 2023 2 1);
                      mkEnrollment "A" (mkTimestamp 2023 1 1);
                      mkEnrollment "A" (mkTimestamp 2023 4 1)]).
Proof.
  apply span_table_no_duplicates.
  - repeat (constructor;
            [simpl; intros H;
             repeat (destruct H as [H|H]; [discriminate H|]); exact H|]).
    constructor.
  - reflexivity.
Defined.

(** Without them a span can be written twice: records of two years, and
    runs that cross from one patient to the next. *)
Example span_written_twice :
  SpanBuilder [mkEnrollment "O" (mkTimestamp 2023 1 10);
               mkEnrollment "P" (mkTimestamp 2022 2 1);
               mkEnrollment "P" (mkTimestamp 2023 1 20);
               mkEnrollment "Q" (mkTimestamp 2022 2 1)]
  = [mkSpan "O" (mkTimestamp 2022 2 1) (mkTimestamp 2023 1 31);
     mkSpan "P" (mkTimestamp 2022 2 1) (mkTimestamp 2023 1 31);
     mkSpan "P" (mkTimestamp 2022 2 1) (mkTimestamp 2023 1 31);
     mkSpan "Q" (mkTimestamp 2022 2 1) (mkTimestamp 2023 1 31)].
Proof. vm_compute. reflexivity. Qed.

(** X4: when the records hold dates of the calendar, every span starts
    no later than it ends, both dates are dates of the calendar, and the
    end is the last day of its month. *)
Theorem span_start_before_end
    (rows : list EnrollmentRecord) (sp : EnrollmentSpan) :
  (forall r, In r rows -> valid_date (month_year r)) ->
  In sp (SpanBuilder rows) ->
  Calendar.leb (enrollment_start_date sp) (enrollment_end_date sp) = true
  /\ valid_date (enrollment_start_date sp)
  /\ valid_date (enrollment_end_date sp)
  /\ last_day_of_month (enrollment_end_date sp).
Proof.
  intros Hv H. apply in_SpanBuilder_run in H.
  destruct H as (r & g & rs & re & Hr & Hrs & Hre & Hext & _ & ->).
  assert (forall a, In a (run_of (sort_values rows) g) ->
                    valid_date (month_year a)) as Hva.
  { intros a Ha. apply Hv, in_sort_values. apply in_run_of in Ha.
    apply (in_labelled_record _ _ Ha). }
  simpl. split; [|split; [|split]].
  - eapply CalendarFacts.leb_trans.
    + apply (Hext re Hre).
    + apply MonthEnd0_after, Hva, Hre.
  - apply Hva, Hrs.
  - apply MonthEnd0_valid, Hva, Hre.
  - reflexivity.
Qed.

Lemma span_start_before_end_example :
  let sp := mkSpan "P" (mkTimestamp 2023 1 15) (mkTimestamp 2023 2 28) in
  Calendar.leb (enrollment_start_date sp) (enrollment_end_date sp) = true
  /\ valid_date (enrollment_start_date sp)
  /\ valid_date (enrollment_end_date sp)
  /\ last_day_of_month (enrollment_end_date sp).
Proof.
  intros sp.
  apply (@span_start_before_end
           [mkEnrollment "P" (mkTimestamp 2023 2 3);
            mkEnrollment "P" (mkTimestamp 2023 1 15)] sp).
  - intros r [<-|[<-|[]]]; repeat split; vm_compute; discriminate.
  - vm_compute. left. reflexivity.
Defined.

(** X5: the span table has at most as many rows as the input has
    records. *)
Theorem span_count_le_records (rows : list EnrollmentRecord) :
  (List.length (SpanBuilder rows) <= List.length rows)%nat.
Proof.
  unfold SpanBuilder. rewrite length_map.
  eapply Nat.le_trans; [apply PandasFacts.drop_duplicates_length|].
  rewrite length_map. unfold boundary_rows.
  eapply Nat.le_trans; [apply filter_length_le|].
  rewrite frame_labelled, length_map.
  rewrite <- (length_map fst), map_fst_labelled.
  rewrite (Permutation_length (sort_values_perm rows)). apply Nat.le_refl.
Qed.

(** ** The summary table *)

Section SummaryTable.

Lemma mapM_Returned (A B : Type) (f : A -> Outcome B) (l : list A) (ys : list B) :
  mapM f l = Returned ys <-> Forall2 (fun x y => f x = Returned y) l ys.
Proof.
  revert ys. induction l as [|a l IH]; intros ys; simpl.
  - split.
    + intros H. injection H as <-. constructor.
    + intros H. inversion H. reflexivity.
  - split.
    + destruct (f a) as [b|e] eqn:E; simpl; [|discriminate].
      destruct (mapM f l) as [bs|e] eqn:F; simpl; [|discriminate].
      intros H. injection H as <-. constructor; auto. apply IH. reflexivity.
    + intros H. inversion H as [|? b ? bs Hb Hbs]; subst.
      rewrite Hb. simpl. rewrite (proj2 (IH bs) Hbs). reflexivity.
Qed.

(** A row of the summary table is determined by its span. *)
Lemma summary_of_span spans visits x :
  In x (VisitAggregator spans visits) ->
  x = mkSummary (summary_span x)
        (sum_visit_count (combined spans visits) (summary_span x))
        (count_visit_days (distinct_days (combined spans visits))
                          (summary_span x))
  /\ exists c, In c (combined spans visits) /\ c_span c = summary_span x.
Proof.
  intros H. apply in_VisitAggregator in H. destruct H as (c & Hc & ->).
  simpl. split; [reflexivity|]. exists c. auto.
Qed.

(** The number of days of a span is at least 1 and at most its number of
    rows in the joined frame. *)
Lemma count_visit_days_bounds spans visits c :
  In c (combined spans visits) ->
  1 <= count_visit_days (distinct_days (combined spans visits)) (c_span c)
    <= Z.of_nat (List.length
                   (Pandas.group_rows span_eqb c_span (c_span c)
                                      (combined spans visits))).
Proof.
  intros Hc. unfold count_visit_days. rewrite group_rows_distinct_days.
  set (rows := Pandas.group_rows span_eqb c_span (c_span c)
                                 (combined spans visits)).
  assert (In c rows) as Hin.
  { unfold rows, Pandas.group_rows. apply filter_In. split; auto.
    apply span_eqb_refl. }
  pose proof (PandasFacts.drop_duplicates_length span_date_eqb span_date rows)
    as Hlen.
  destruct (PandasFacts.drop_duplicates_keys span_date_eqb span_date
              span_date_eqb_eq _ _ Hin) as (c' & Hc' & _).
  destruct (Pandas.drop_duplicates span_date_eqb span_date rows) as [|d l];
    [contradiction|].
  simpl List.length in *. lia.
Qed.

Lemma sum_visit_count_ge_rows spans visits k :
  (forall v, In v visits -> 1 <= outpatient_visit_count v) ->
  Z.of_nat (List.length
              (Pandas.group_rows span_eqb c_span k (combined spans visits)))
  <= sum_visit_count (combined spans visits) k.
Proof.
  intros Hpos. unfold sum_visit_count.
  rewrite <- (length_map c_count). apply sum_Z_ge_length.
  intros z Hz. apply in_map_iff in Hz. destruct Hz as (c' & <- & Hc').
  apply filter_In in Hc'. destruct Hc' as [Hc' _].
  apply in_combined in Hc'.
  destruct Hc' as (sp & v & _ & Hv & _ & _ & _ & ->). simpl. auto.
Qed.

End SummaryTable.

(** X6: the summary table holds at most one row for a span. *)
Theorem one_row_per_span
    (spans : list EnrollmentSpan) (visits : list VisitRecord) :
  NoDup (map summary_span (VisitAggregator spans visits)).
Proof.
  apply NoDup_map_on.
  - unfold VisitAggregator.
    rewrite <- (map_id (Pandas.drop_duplicates _ _ _)).
    apply (@PandasFacts.drop_duplicates_NoDup _ _ summary_eqb (fun s => s)).
    apply summary_eqb_eq.
  - intros a b Ha Hb E.
    destruct (summary_of_span _ _ _ Ha) as [-> _].
    destruct (summary_of_span _ _ _ Hb) as [-> _].
    simpl in E. rewrite E. reflexivity.
Qed.

(** X7: a span has a row in the summary table exactly when it is a row
    of the span table and at least one visit row of its patient lies
    between its start and its end; a span without such a visit is left
    out, it does not appear with counts of zero. *)
Theorem span_in_summary_iff_visited
    (spans : list EnrollmentSpan) (visits : list VisitRecord)
    (sp : EnrollmentSpan) :
  (exists x, In x (VisitAggregator spans visits) /\ summary_span x = sp)
  <-> In sp spans /\ visits_in_span sp visits <> [].
Proof.
  split.
  - intros (x & Hx & <-).
    destruct (summary_of_span _ _ _ Hx) as [_ (c & Hc & E)].
    apply in_combined in Hc.
    destruct Hc as (sp & v & Hsp & Hv & Hp & H1 & H2 & ->).
    simpl in E. subst sp. split; [exact Hsp|].
    assert (In v (visits_in_span (summary_span x) visits)) as Hin.
    { unfold visits_in_span. apply filter_In. split; auto.
      rewrite H1, H2, (proj2 (String.eqb_eq _ _) Hp). reflexivity. }
    intros E. rewrite E in Hin. exact Hin.
  - intros [Hsp Hne].
    destruct (visits_in_span sp visits) as [|v l] eqn:E; [congruence|].
    assert (In v (visits_in_span sp visits)) as Hin
        by (rewrite E; left; reflexivity).
    unfold visits_in_span in Hin. apply filter_In in Hin.
    destruct Hin as [Hv Hc]. apply andb_true_iff in Hc. destruct Hc as [Hp Hc].
    apply andb_true_iff in Hc. destruct Hc as [H1 H2].
    apply String.eqb_eq in Hp.
    set (c := mkCombined sp (date v) (outpatient_visit_count v)).
    assert (In c (combined spans visits)) as Hin
        by (apply in_combined; exists sp, v; auto 10).
    exists (mkSummary (c_span c)
              (sum_visit_count (combined spans visits) (c_span c))
              (count_visit_days (distinct_days (combined spans visits))
                                (c_span c))).
    split; [|reflexivity].
    apply in_VisitAggregator. exists c. auto.
Qed.



(** X9: the check printed on line 162 is [True] exactly when the filter
    of line 167 drops no row of the joined frame. *)
Theorem all_in_enrollment_iff_nothing_dropped
    (spans : list EnrollmentSpan) (visits : list VisitRecord) :
  all_in_enrollment_check spans visits = true
  <-> combined spans visits = merge spans visits.
Proof.
  unfold all_in_enrollment_check, combined. split.
  - intros H. apply PandasFacts.filter_all. apply forallb_forall, H.
  - intros H. apply forallb_forall. intros c Hc.
    rewrite <- H in Hc. apply filter_In in Hc. tauto.
Qed.



(** ** Reading the enrollment file *)

Section ReadingDates.

Ltac some_eq :=
  match goal with
  | |- Some ?a = Some ?b -> _ =>
      let H := fresh in
      intros H; assert (a = b) by congruence; clear H
  end.

Lemma digit_range c k : Strptime.digit c = Some k -> 0 <= k <= 9.
Proof.
  unfold Strptime.digit.
  destruct ((48 <=? Z.of_N (N_of_ascii c)) && (Z.of_N (N_of_ascii c) <=? 57))
    eqn:E; [|discriminate].
  apply andb_true_iff in E. destruct E as [E1 E2].
  apply Z.leb_le in E1, E2. some_eq. lia.
Qed.

Lemma nonzero_digit_range c k : Strptime.nonzero_digit c = Some k -> 1 <= k <= 9.
Proof.
  unfold Strptime.nonzero_digit.
  destruct (Strptime.digit c) as [j|] eqn:E; [|discriminate].
  apply digit_range in E. destruct j; try discriminate; some_eq; lia.
Qed.

Lemma directive_m_range f m : Strptime.directive_m f = Some m -> 1 <= m <= 12.
Proof.
  unfold Strptime.directive_m.
  destruct f as [|c1 [|c2 [|c3 f]]]; try discriminate.
  - intros H. apply nonzero_digit_range in H. lia.
  - destruct (Ascii.eqb c1 "0"%char).
    + intros H. apply nonzero_digit_range in H. lia.
    + destruct (Ascii.eqb c1 "1"%char); [|discriminate].
      destruct (Strptime.digit c2) as [k|] eqn:E; [|discriminate].
      apply digit_range in E.
      destruct (k <=? 2) eqn:L; [|discriminate].
      apply Z.leb_le in L. some_eq. lia.
Qed.

Lemma directive_d_range f dd : Strptime.directive_d f = Some dd -> 1 <= dd <= 31.
Proof.
  unfold Strptime.directive_d.
  destruct f as [|c1 [|c2 [|c3 f]]]; try discriminate.
  - intros H. apply nonzero_digit_range in H. lia.
  - destruct (Ascii.eqb c1 "0"%char || Ascii.eqb c1 " "%char).
    + intros H. apply nonzero_digit_range in H. lia.
    + destruct (Strptime.digit c1) as [j|] eqn:E1; [|discriminate].
      destruct (Strptime.digit c2) as [k|] eqn:E2;
        [|destruct j as [|[[]|[]|]|]; discriminate].
      apply digit_range in E2.
      destruct j as [|[[|[]|]|[|[]|]|]|]; try discriminate.
      * destruct (k <=? 1) eqn:L; [|discriminate].
        apply Z.leb_le in L. some_eq. lia.
      * some_eq. lia.
      * some_eq. lia.
Qed.

Lemma directive_y_range f y : Strptime.directive_y f = Some y -> 1969 <= y <= 2068.
Proof.
  unfold Strptime.directive_y.
  destruct f as [|c1 [|c2 [|c3 f]]]; try discriminate.
  destruct (Strptime.digit c1) as [a|] eqn:E1; [|discriminate].
  destruct (Strptime.digit c2) as [b|] eqn:E2; [|discriminate].
  apply digit_range in E1, E2.
  destruct (10 * a + b <=? 68) eqn:L; some_eq.
  - apply Z.leb_le in L. lia.
  - apply Z.leb_gt in L. lia.
Qed.

End ReadingDates.




(** X13: the check of line 93 compares with the year 2023 itself: for
    records of one year other than 2023 it prints [False] as well, and
    the spans are written as for any input. *)
Theorem other_single_year_prints_False
    (csv : list EnrollmentLine) (rows : list EnrollmentRecord) (y : Z) :
  read_enrollment csv = Returned rows ->
  rows <> [] ->
  (forall r, In r rows -> year (month_year r) = y) ->
  y <> 2023 ->
  step1 csv
  = Returned (mkStep1 false (List.length (SpanBuilder rows)) (SpanBuilder rows)).
Proof.
  intros Hread Hne Hy Hy'. unfold step1. rewrite Hread. simpl.
  replace (single_year_check rows) with false; [reflexivity|].
  destruct rows as [|r rows]; [congruence|].
  unfold single_year_check. simpl.
  rewrite (Hy r (or_introl eq_refl)).
  apply Z.eqb_neq in Hy'. rewrite Hy'. reflexivity.
Qed.

Lemma other_single_year_example :
  step1 [Some ("P", "3/1/22")%string; Some ("P", "4/1/22")%string]
  = Returned
      (mkStep1 false
         (List.length
            (SpanBuilder [mkEnrollment "P" (mkTimestamp 2022 3 1);
                          mkEnrollment "P" (mkTimestamp 2022 4 1)]))
         (SpanBuilder [mkEnrollment "P" (mkTimestamp 2022 3 1);
                       mkEnrollment "P" (mkTimestamp 2022 4 1)])).
Proof.
  apply (@other_single_year_prints_False _ _ 2022).
  - reflexivity.
  - discriminate.
  - intros r [<-|[<-|[]]]; reflexivity.
  - discriminate.
Defined.

(** ** The two steps together *)

(** The two count columns on a span table without duplicates. *)
Lemma summary_columns spans visits x :
  NoDup spans ->
  In x (VisitAggregator spans visits) ->
  In (summary_span x) spans
  /\ ct_outpatient_visits x
     = sum_Z (map outpatient_visit_count (visits_in_span (summary_span x) visits))
  /\ ct_days_with_outpatient_visit x
     = distinct_dates (visits_in_span (summary_span x) visits).
Proof.
  intros Hnd Hx. apply in_VisitAggregator in Hx. destruct Hx as (c & Hc & ->).
  simpl. pose proof Hc as Hc'. apply in_combined in Hc'.
  destruct Hc' as (sp & v & Hsp & _ & _ & _ & _ & ->). simpl.
  split; [exact Hsp|]. split.
  - unfold sum_visit_count. rewrite (@group_rows_combined spans visits sp Hnd Hsp).
    rewrite map_map. reflexivity.
  - unfold count_visit_days, distinct_dates.
    rewrite group_rows_distinct_days, (@group_rows_combined spans visits sp Hnd Hsp).
    rewrite count_distinct_days. reflexivity.
Qed.



(** With a span written twice the visits of the span are counted twice. *)
Example visits_counted_twice :
  VisitAggregator
    (SpanBuilder [mkEnrollment "O" (mkTimestamp 2023 1 10);
                  mkEnrollment "P" (mkTimestamp 2022 2 1);
                  mkEnrollment "P" (mkTimestamp 2023 1 20);
                  mkEnrollment "Q" (mkTimestamp 2022 2 1)])
    [mkVisit "P" (mkTimestamp 2022 6 1) 3]
  = [mkSummary (mkSpan "P" (mkTimestamp 2022 2 1) (mkTimestamp 2023 1 31)) 6 1].
Proof. vm_compute. reflexivity. Qed.

(** ** The header line of gen_csv_file.py *)

Module CsvFacts.

Import Csv.

Lemma append_assoc (a b c : string) :
  String.append (String.append a b) c = String.append a (String.append b c).
Proof. induction a as [|x a IH]; simpl; congruence. Qed.

Lemma append_nil_r (a : string) : String.append a EmptyString = a.
Proof. induction a as [|x a IH]; simpl; congruence. Qed.

Lemma follows_not_quote r :
  follows_field r ->
  exists c r', r = String c r' /\ Ascii.eqb c quotechar = false
               /\ special c = true.
Proof.
  intros (c & r' & -> & [->| ->]); eexists; eexists;
    (split; [reflexivity|split; reflexivity]).
Qed.

Lemma read_quoted_copy f r :
  follows_field r ->
  read_quoted (String.append (copy_field f) (String quotechar r)) = Some (f, r).
Proof.
  intros Hr. apply follows_not_quote in Hr.
  destruct Hr as (c & r' & -> & Hq & _).
  induction f as [|x f IH]; simpl.
  - rewrite ?Ascii.eqb_refl, Hq. reflexivity.
  - destruct (Ascii.eqb x quotechar) eqn:E; simpl.
    + rewrite ?Ascii.eqb_refl. simpl in IH. rewrite IH.
      apply Ascii.eqb_eq in E. subst x. reflexivity.
    + rewrite E. simpl in IH. rewrite IH. reflexivity.
Qed.

Lemma special_quotechar c : Ascii.eqb c quotechar = true -> special c = true.
Proof.
  intros E. unfold special. rewrite E. rewrite orb_true_r. reflexivity.
Qed.

Lemma copy_field_plain f : needs_quotes f = false -> copy_field f = f.
Proof.
  induction f as [|x f IH]; simpl; auto.
  intros H. apply orb_false_iff in H. destruct H as [Hx Hf].
  destruct (Ascii.eqb x quotechar) eqn:E.
  - apply special_quotechar in E. congruence.
  - rewrite (IH Hf). reflexivity.
Qed.

Lemma read_plain_app f r :
  needs_quotes f = false -> follows_field r ->
  read_plain (String.append f r) = (f, r).
Proof.
  intros Hf Hr. apply follows_not_quote in Hr.
  destruct Hr as (c & r' & -> & _ & Hs).
  induction f as [|x f IH]; simpl.
  - rewrite Hs. reflexivity.
  - simpl in Hf. apply orb_false_iff in Hf. destruct Hf as [Hx Hf].
    rewrite Hx. rewrite (IH Hf). reflexivity.
Qed.

(** A field is read back from the record, whatever it holds. *)
Lemma read_join_append f r :
  follows_field r ->
  read_field (String.append (join_append f) r) = Some (f, r).
Proof.
  intros Hr. unfold join_append.
  destruct (needs_quotes f) eqn:E.
  - unfold quoted. simpl. rewrite ?Ascii.eqb_refl.
    rewrite append_assoc. simpl. apply read_quoted_copy, Hr.
  - rewrite (copy_field_plain _ E).
    pose proof (read_plain_app f E Hr) as Hp.
    destruct f as [|x f]; simpl in *.
    + destruct (follows_not_quote Hr) as (c & r' & -> & Hq & _).
      unfold read_field. rewrite Hq. rewrite Hp. reflexivity.
    + apply orb_false_iff in E. destruct E as [Hx _].
      assert (Ascii.eqb x quotechar = false) as Hq.
      { destruct (Ascii.eqb x quotechar) eqn:Q; auto.
        apply special_quotechar in Q. congruence. }
      rewrite Hq. rewrite Hx in *. exact (f_equal Some Hp).
Qed.

Lemma read_quoted_empty r :
  follows_field r ->
  read_field (String.append (quoted EmptyString) r) = Some (EmptyString, r).
Proof.
  intros Hr. unfold quoted. simpl. rewrite ?Ascii.eqb_refl.
  exact (read_quoted_copy EmptyString Hr).
Qed.

Lemma join_fields_cons f fields :
  String.append (join_fields (f :: fields)) lineterminator
  = String.append (join_append f) (after_first fields).
Proof.
  unfold join_fields. destruct fields as [|g fields]; simpl; auto.
  rewrite append_assoc. reflexivity.
Qed.

Lemma after_first_follows fields : follows_field (after_first fields).
Proof.
  destruct fields; simpl; eexists; eexists; split; try reflexivity; auto.
Qed.

Lemma join_fields_inj fs1 : forall fs2,
  fs1 <> [] -> fs2 <> [] ->
  String.append (join_fields fs1) lineterminator
  = String.append (join_fields fs2) lineterminator ->
  fs1 = fs2.
Proof.
  induction fs1 as [|f t1 IH]; intros [|g t2] H1 H2 E; try congruence.
  rewrite !join_fields_cons in E.
  pose proof (read_join_append f (after_first_follows t1)) as R1.
  pose proof (read_join_append g (after_first_follows t2)) as R2.
  rewrite E in R1. rewrite R1 in R2. injection R2 as -> Ea. f_equal.
  destruct t1 as [|f1 t1], t2 as [|g1 t2]; auto; try discriminate Ea.
  apply IH; try discriminate.
  simpl in Ea. injection Ea as Ea. exact Ea.
Qed.

Lemma join_append_empty f : join_append f = EmptyString -> f = EmptyString.
Proof.
  unfold join_append. destruct (needs_quotes f) eqn:E.
  - discriminate.
  - rewrite (copy_field_plain _ E). auto.
Qed.

Lemma join_fields_empty fields :
  join_fields fields = EmptyString -> fields = [] \/ fields = [EmptyString].
Proof.
  unfold join_fields. destruct fields as [|f [|g t]]; simpl; auto.
  - intros H. apply join_append_empty in H. subst. auto.
  - destruct (join_append f); discriminate.
Qed.

(** The text of a row in its three cases. *)
Lemma writerow_cases fields :
  (fields = [EmptyString]
   /\ writerow fields = String.append (quoted EmptyString) lineterminator)
  \/ (fields <> [EmptyString]
      /\ writerow fields = String.append (join_fields fields) lineterminator).
Proof.
  unfold writerow. destruct fields as [|f t].
  - right. split; [discriminate|reflexivity].
  - destruct (join_fields (f :: t)) eqn:E.
    + apply join_fields_empty in E. destruct E as [E|E]; [discriminate|].
      left. split; [exact E|reflexivity].
    + right. split; [|reflexivity]. intros H. injection H as -> ->.
      discriminate E.
Qed.

Lemma lineterminator_follows : follows_field lineterminator.
Proof. eexists; eexists; split; [reflexivity|]. auto. Qed.

End CsvFacts.

(** X15: the text that [writerow] hands to the file determines the row:
    two different lists of field names never give the same line, whatever
    commas, quotes or line breaks the names hold. *)
Theorem writerow_injective (fields1 fields2 : list string) :
  Csv.writerow fields1 = Csv.writerow fields2 -> fields1 = fields2.
Proof.
  intros E.
  destruct (CsvFacts.writerow_cases fields1) as [[-> E1]|[N1 E1]];
    destruct (CsvFacts.writerow_cases fields2) as [[-> E2]|[N2 E2]];
    try rewrite E1 in E; try rewrite E2 in E; clear E1 E2; auto.
  - exfalso. destruct fields2 as [|g t]; [discriminate E|].
    rewrite CsvFacts.join_fields_cons in E.
    pose proof (CsvFacts.read_quoted_empty CsvFacts.lineterminator_follows) as R1.
    pose proof (CsvFacts.read_join_append g (CsvFacts.after_first_follows t)) as R2.
    rewrite E in R1. rewrite R1 in R2. injection R2 as <- Ea.
    destruct t; [apply N2; reflexivity|discriminate Ea].
  - exfalso. destruct fields1 as [|g t]; [discriminate E|].
    rewrite CsvFacts.join_fields_cons in E.
    pose proof (CsvFacts.read_quoted_empty CsvFacts.lineterminator_follows) as R1.
    pose proof (CsvFacts.read_join_append g (CsvFacts.after_first_follows t)) as R2.
    rewrite <- E in R1. rewrite R1 in R2. injection R2 as <- Ea.
    destruct t; [apply N1; reflexivity|discriminate Ea].
  - destruct fields1 as [|f1 t1], fields2 as [|f2 t2]; auto.
    + exfalso. rewrite CsvFacts.join_fields_cons in E.
      unfold Csv.join_append in E. simpl in E.
      destruct (Csv.needs_quotes f2) eqn:Q.
      * discriminate E.
      * rewrite (CsvFacts.copy_field_plain _ Q) in E.
        destruct f2 as [|c f2].
        -- destruct t2; [apply N2; reflexivity|discriminate E].
        -- simpl in Q. apply orb_false_iff in Q. destruct Q as [Q _].
           simpl in E. injection E as <- _. discriminate Q.
    + exfalso. rewrite CsvFacts.join_fields_cons in E.
      unfold Csv.join_append in E. simpl in E.
      destruct (Csv.needs_quotes f1) eqn:Q.
      * discriminate E.
      * rewrite (CsvFacts.copy_field_plain _ Q) in E.
        destruct f1 as [|c f1].
        -- destruct t1; [apply N1; reflexivity|discriminate E].
        -- simpl in Q. apply orb_false_iff in Q. destruct Q as [Q _].
           simpl in E. injection E as -> _. discriminate Q.
    + apply CsvFacts.join_fields_inj; auto; discriminate.
Qed.

Lemma writerow_injective_example :
  ["a,b"; "c"]%string = ["a,b"; "c"]%string.
Proof.
  apply (@writerow_injective ["a,b"; "c"]%string ["a,b"; "c"]%string).
  reflexivity.
Defined.

(** X16: when no field name holds a comma, a quote or a line break (and
    the row is not the single empty name), the file receives the names
    as they are, separated by commas, and one line terminator CR LF. *)
Theorem plain_header_line (filePath fileName : string) (fieldNames : list string) :
  Forall (fun f => Csv.needs_quotes f = false) fieldNames ->
  fieldNames <> [EmptyString] ->
  gen_csv_file filePath fileName fieldNames
  = (String.append filePath (String "/"%char fileName),
     String.append (String.concat "," fieldNames) Csv.lineterminator).
Proof.
  intros Hplain Hne. unfold gen_csv_file. f_equal.
  destruct (CsvFacts.writerow_cases fieldNames) as [[E _]|[_ ->]];
    [contradiction|].
  f_equal. unfold Csv.join_fields. f_equal.
  rewrite <- (map_id fieldNames) at 2. apply map_ext_in.
  intros f Hf. rewrite Forall_forall in Hplain.
  unfold Csv.join_append. rewrite (Hplain f Hf).
  apply CsvFacts.copy_field_plain, Hplain, Hf.
Qed.

(** The header that the [__main__] block writes. *)
Lemma plain_header_line_main :
  gen_csv_file_main "/home/user"
  = ("/home/user/pt_enrollment_visits.csv",
     String.append
       (String.concat ","
          ["patient_id"; "enrollment_start_date"; "enrollment_end_date";
           "ct_outpatient_visits"; "ct_days_with_outpatient_visit"])
       Csv.lineterminator)%string.
Proof.
  apply (@plain_header_line "/home/user" "pt_enrollment_visits.csv").
  - repeat constructor.
  - discriminate.
Defined.

